(** * Rock-Paper-Scissors-Plus: the rule tools and the opponent's decision engine

    A shallow embedding of [tools.py], [agent.py], [state.py] and the part of
    [main.py] that drives the agent, followed by the properties of the
    decision procedure.

    Conventions of the embedding.
    - Python [str] values are [string]s. [str.lower] and [str.strip] are
      embedded for ASCII text: the theorems that say how a typed line is
      validated, or read by the menu, assume that the line is ASCII.
    - A Python exception is a value of [exn]; a call either returns or raises.
    - The agent object and the process-wide generator of module [random] form
      the mutable [World] that every method call threads through.
    - The results of [random.random()] and of [random.choice] are read from an
      explicit tape, so that each draw is an input of the model.
    - A float is the rational it denotes: a draw of [random.random()] is any
      rational, a literal is the double it is read as, and the frequencies
      are the exact quotients, which are ordered as their roundings are. *)

From Stdlib Require Import String Ascii List Bool Arith ZArith QArith Lia.
Import ListNotations.

Local Open Scope nat_scope.
Local Open Scope string_scope.

(* ------------------------------------------------------------------------- *)
(** ** Python values *)

Module Py.

(** Exceptions the modelled code can raise. *)
Inductive exn : Type :=
| ZeroDivisionError
| KeyError (key : string)
| IndexError
| ValueError.

(** What a call produces: a value, or an exception. *)
Inductive outcome (A : Type) : Type :=
| Return (a : A)
| Raise (e : exn).

Arguments Return {A} a.
Arguments Raise {A} e.

Definition bind_outcome {A B} (o : outcome A) (k : A -> outcome B) : outcome B :=
  match o with
  | Return a => k a
  | Raise e => Raise e
  end.

(** [xs == ys] on lists (and tuples) of strings. *)
Fixpoint list_eqb (xs ys : list string) : bool :=
  match xs, ys with
  | [], [] => true
  | x :: xs', y :: ys' => (x =? y) && list_eqb xs' ys'
  | _, _ => false
  end.

(** [x in xs]. *)
Definition mem (x : string) (xs : list string) : bool :=
  existsb (String.eqb x) xs.

(** [xs[i:i+n]]. *)
Definition slice (i n : nat) (xs : list string) : list string :=
  firstn n (skipn i xs).

(** [xs[-n:]]: the last [n] elements; [xs[-0:]] is all of [xs]. *)
Definition suffix (n : nat) (xs : list string) : list string :=
  if (n =? 0)%nat then xs else skipn (length xs - n) xs.

(** [xs.pop(0)], for the list that remains. *)
Definition pop0 (xs : list string) : list string := tl xs.

(** [range(n)]. *)
Definition range (n : nat) : list nat := seq 0 n.

(** Truth value of an optional string: [None] and [""] are false. *)
Definition truthy (o : option string) : bool :=
  match o with
  | None => false
  | Some s => negb (s =? "")
  end.

(** *** [str.lower] and [str.strip] on ASCII text *)

Definition is_upper (c : ascii) : bool :=
  let n := nat_of_ascii c in ((65 <=? n) && (n <=? 90))%nat.

Definition is_lower (c : ascii) : bool :=
  let n := nat_of_ascii c in ((97 <=? n) && (n <=? 122))%nat.

Definition lower_char (c : ascii) : ascii :=
  if is_upper c then ascii_of_nat (nat_of_ascii c + 32) else c.

Definition upper_char (c : ascii) : ascii :=
  if is_lower c then ascii_of_nat (nat_of_ascii c - 32) else c.

Fixpoint lower (s : string) : string :=
  match s with
  | EmptyString => EmptyString
  | String c s' => String (lower_char c) (lower s')
  end.

Fixpoint upper (s : string) : string :=
  match s with
  | EmptyString => EmptyString
  | String c s' => String (upper_char c) (upper s')
  end.

(** [str.isspace] for one ASCII character: tab to carriage return, the four
    separators 0x1c to 0x1f, and the space. *)
Definition is_space (c : ascii) : bool :=
  let n := nat_of_ascii c in
  (((9 <=? n) && (n <=? 13)) || ((28 <=? n) && (n <=? 31)) || (n =? 32))%nat.

Fixpoint lstrip (s : string) : string :=
  match s with
  | EmptyString => EmptyString
  | String c s' => if is_space c then lstrip s' else s
  end.

(** Removes trailing whitespace: a character is dropped when it is
    whitespace and nothing remains after it. *)
Fixpoint rstrip (s : string) : string :=
  match s with
  | EmptyString => EmptyString
  | String c s' =>
      match rstrip s' with
      | EmptyString => if is_space c then EmptyString else String c EmptyString
      | r => String c r
      end
  end.

Definition strip (s : string) : string := rstrip (lstrip s).

(** A string made of whitespace only. *)
Fixpoint all_space (s : string) : bool :=
  match s with
  | EmptyString => true
  | String c s' => is_space c && all_space s'
  end.

(** Text made of ASCII characters only, the text the two functions above
    are [str.lower] and [str.strip] on. *)
Definition is_ascii_char (c : ascii) : bool := (nat_of_ascii c <? 128)%nat.

Fixpoint is_ascii (s : string) : bool :=
  match s with
  | EmptyString => true
  | String c s' => is_ascii_char c && is_ascii s'
  end.

End Py.

Import Py.

(* ------------------------------------------------------------------------- *)
(** ** Floating-point literals *)

(** A Python float is modelled by the rational number it denotes, and a
    literal of the source by the double it is read as: the multiple of a
    power of two nearest to the decimal. A comparison of two floats is then
    the comparison of these rationals. *)
Definition float_0_3 : Q := 5404319552844595 # 18014398509481984.
Definition float_0_4 : Q := 3602879701896397 # 9007199254740992.
Definition float_0_6 : Q := 5404319552844595 # 9007199254740992.
Definition float_0_7 : Q := 3152519739159347 # 4503599627370496.
Definition float_0_8 : Q := 3602879701896397 # 4503599627370496.
Definition float_0_9 : Q := 8106479329266893 # 9007199254740992.
Definition float_0_33 : Q := 5944751508129055 # 18014398509481984.

(* ------------------------------------------------------------------------- *)
(** ** config *)

(** Modelled from the spec: [config.py] is not among the source files; the
    constant [VALID_MOVES] imported from it is the four-move set
    rock, paper, scissors, bomb. *)
Definition VALID_MOVES : list string := ["rock"; "paper"; "scissors"; "bomb"].

(** The three moves offered to [random.choice] throughout the source. *)
Definition BASE_MOVES : list string := ["rock"; "paper"; "scissors"].

(* ------------------------------------------------------------------------- *)
(** ** tools.py *)

(** The dictionary [validate_move] returns: key ["valid"] is always present,
    ["move"] only on success and ["reason"] only on rejection. *)
Record Validation : Type := mkValidation {
  valid : bool;
  move : option string;
  reason : option string
}.

Definition validate_move (raw : string) (bomb_used : bool) : Validation :=
  let m := strip (lower raw) in
  if negb (mem m VALID_MOVES) then
    mkValidation false None (Some "Invalid move")
  else if (m =? "bomb") && bomb_used then
    mkValidation false None (Some "Bomb already used")
  else
    mkValidation true (Some m) None.

(** [validate_move] with [move.lower().strip()], a call into the [str]
    type, taken as the parameter [normalise]: the function on text of any
    kind. [validate_move] is its instance for ASCII text. *)
Definition validate_move_with (normalise : string -> string)
  (raw : string) (bomb_used : bool) : Validation :=
  let m := normalise raw in
  if negb (mem m VALID_MOVES) then
    mkValidation false None (Some "Invalid move")
  else if (m =? "bomb") && bomb_used then
    mkValidation false None (Some "Bomb already used")
  else
    mkValidation true (Some m) None.

(** The dictionary [rules] of [resolve_round] and of [_would_win]:
    [rules[k]], raising [KeyError] on a missing key. *)
Definition rules (k : string) : outcome string :=
  if k =? "rock" then Return "scissors"
  else if k =? "scissors" then Return "paper"
  else if k =? "paper" then Return "rock"
  else Raise (KeyError k).

Definition resolve_round (user_move bot_move : string) : outcome string :=
  if user_move =? bot_move then Return "draw"
  else if (user_move =? "bomb") && (bot_move =? "bomb") then Return "draw"
  else if user_move =? "bomb" then Return "user"
  else if bot_move =? "bomb" then Return "bot"
  else bind_outcome (rules user_move)
         (fun beaten => Return (if beaten =? bot_move then "user" else "bot")).

(* ------------------------------------------------------------------------- *)
(** ** state.py *)

Record GameState : Type := mkGameState {
  round : nat;
  user_score : nat;
  bot_score : nat;
  user_bomb_used : bool;
  bot_bomb_used : bool
}.

Definition GameState_init : GameState := mkGameState 1 0 0 false false.

Definition update_game_state (state : GameState) (winner : string) : GameState :=
  let state1 :=
    if winner =? "user" then
      mkGameState (round state) (user_score state + 1) (bot_score state)
                  (user_bomb_used state) (bot_bomb_used state)
    else if winner =? "bot" then
      mkGameState (round state) (user_score state) (bot_score state + 1)
                  (user_bomb_used state) (bot_bomb_used state)
    else state in
  mkGameState (round state1 + 1) (user_score state1) (bot_score state1)
              (user_bomb_used state1) (bot_bomb_used state1).

(* ------------------------------------------------------------------------- *)
(** ** Module random *)

(** Strict comparison of rationals, as a boolean. *)
Definition Qltb (x y : Q) : bool :=
  (Qnum x * QDen y <? Qnum y * QDen x)%Z.

(** The generator: the value of the n-th draw when it is consumed by
    [random.random()], a float of the interval from 0 to 1 that the model
    lets be any rational, and when it is consumed by [random.choice], and
    the number of draws consumed so far. *)
Record Rng : Type := mkRng {
  unit_draws : nat -> Q;
  index_draws : nat -> nat;
  cursor : nat
}.

Definition advance (g : Rng) : Rng :=
  mkRng (unit_draws g) (index_draws g) (S (cursor g)).

(* ------------------------------------------------------------------------- *)
(** ** agent.py: the object *)

(** The attributes assigned by [AIAgent.__init__]. The class body defines
    every method twice with the same text; Python keeps the later definition,
    and each method is embedded once. *)
Record AIAgent : Type := mkAIAgent {
  difficulty : string;
  move_history : list string;
  opponent_history : list string;
  move_patterns : list (string * list string);
  last_moves : list string;
  pattern_length : nat
}.

Definition AIAgent_init (difficulty : string) : AIAgent :=
  mkAIAgent difficulty [] [] [] [] 3.

Definition set_move_history (a : AIAgent) (v : list string) : AIAgent :=
  mkAIAgent (difficulty a) v (opponent_history a) (move_patterns a)
            (last_moves a) (pattern_length a).

Definition set_opponent_history (a : AIAgent) (v : list string) : AIAgent :=
  mkAIAgent (difficulty a) (move_history a) v (move_patterns a)
            (last_moves a) (pattern_length a).

Definition set_move_patterns (a : AIAgent) (v : list (string * list string)) : AIAgent :=
  mkAIAgent (difficulty a) (move_history a) (opponent_history a) v
            (last_moves a) (pattern_length a).

Definition set_last_moves (a : AIAgent) (v : list string) : AIAgent :=
  mkAIAgent (difficulty a) (move_history a) (opponent_history a)
            (move_patterns a) v (pattern_length a).

(* ------------------------------------------------------------------------- *)
(** ** Method calls: state and exceptions *)

(** What a method call can read and change: the agent it is called on and
    the generator. *)
Record World : Type := mkWorld {
  agent : AIAgent;
  generator : Rng
}.

Definition M (A : Type) : Type := World -> outcome A * World.

Definition ret {A} (a : A) : M A := fun w => (Return a, w).

Definition raise {A} (e : exn) : M A := fun w => (Raise e, w).

Definition bind {A B} (c : M A) (k : A -> M B) : M B :=
  fun w =>
    match c w with
    | (Return a, w') => k a w'
    | (Raise e, w') => (Raise e, w')
    end.

Definition lift {A} (o : outcome A) : M A := fun w => (o, w).

Declare Scope py_scope.
Delimit Scope py_scope with py.
Notation "x <- c1 ;; c2" := (bind c1 (fun x => c2))
  (at level 61, c1 at next level, right associativity) : py_scope.
Notation "c1 ;; c2" := (bind c1 (fun _ => c2))
  (at level 61, right associativity) : py_scope.
Local Open Scope py_scope.

Definition get_self : M AIAgent := fun w => (Return (agent w), w).

Definition modify_self (f : AIAgent -> AIAgent) : M unit :=
  fun w => (Return tt, mkWorld (f (agent w)) (generator w)).

(** [random.random()]. *)
Definition random_random : M Q :=
  fun w =>
    let g := generator w in
    (Return (unit_draws g (cursor g)), mkWorld (agent w) (advance g)).

(** [random.choice(seq)]: the element at a drawn position below [len(seq)];
    [IndexError] on an empty sequence. *)
Definition random_choice (seq : list string) : M string :=
  fun w =>
    let g := generator w in
    match seq with
    | [] => (Raise IndexError, w)
    | x :: _ =>
        (Return (nth (index_draws g (cursor g) mod length seq) seq x),
         mkWorld (agent w) (advance g))
    end.

(* ------------------------------------------------------------------------- *)
(** ** agent.py: the methods *)

Definition update_history (player_move bot_move : string) : M unit :=
  modify_self (fun s => set_opponent_history s (opponent_history s ++ [player_move])) ;;
  modify_self (fun s => set_move_history s (move_history s ++ [bot_move])) ;;
  modify_self (fun s => set_last_moves s (last_moves s ++ [player_move])) ;;
  self <- get_self ;;
  if (10 <? length (last_moves self))%nat then
    modify_self (fun s => set_last_moves s (pop0 (last_moves s)))
  else ret tt.

(** [counters.get(move, "rock")]. *)
Definition get_counter_move (move : string) : string :=
  if move =? "rock" then "paper"
  else if move =? "paper" then "scissors"
  else if move =? "scissors" then "rock"
  else if move =? "bomb" then "bomb"
  else "rock".

(** A dictionary with string keys, in insertion order. *)
Definition dict (V : Type) : Type := list (string * V).

Definition dict_mem {V} (k : string) (d : dict V) : bool :=
  existsb (fun kv => fst kv =? k) d.

(** [d[k] += 1] for a key that is present. *)
Definition dict_incr (k : string) (d : dict nat) : dict nat :=
  map (fun kv => if fst kv =? k then (fst kv, snd kv + 1) else kv) d.

(** [sum(d.values())]. *)
Definition dict_sum (d : dict nat) : nat :=
  fold_left (fun acc kv => acc + snd kv) d 0.

(** [count / total] on integers: true division. The quotient is kept exact:
    the double Python returns is this quotient rounded to 53 bits. The
    frequencies of one history are only compared with each other, and for a
    total below 2^53 the rounding keeps the order of two quotients over the
    same total; no statement below depends on the value of a quotient beyond
    that order and its being zero or not. *)
Definition py_div (count total : nat) : outcome Q :=
  if (total =? 0)%nat then Raise ZeroDivisionError
  else Return (Z.of_nat count # Pos.of_nat total).

(** [{k: f(v) for k, v in d.items()}]. *)
Fixpoint dict_comprehension {V W} (f : V -> outcome W) (d : dict V) : outcome (dict W) :=
  match d with
  | [] => Return []
  | (k, v) :: d' =>
      bind_outcome (f v) (fun w =>
      bind_outcome (dict_comprehension f d') (fun r => Return ((k, w) :: r)))
  end.

Definition analyze_patterns (self : AIAgent) : outcome (dict Q) :=
  match opponent_history self with
  | [] => Return [("rock", float_0_33); ("paper", float_0_33); ("scissors", float_0_33)]
  | _ =>
      let move_counts :=
        fold_left
          (fun mc move => if dict_mem move mc then dict_incr move mc else mc)
          (opponent_history self)
          [("rock", 0); ("paper", 0); ("scissors", 0)] in
      let total := dict_sum move_counts in
      dict_comprehension (fun count => py_div count total) move_counts
  end.

(** [max(d, key=d.get)]: the first key, in insertion order, whose value no
    later value exceeds; [ValueError] on an empty dictionary. *)
Definition max_by_value (d : dict Q) : outcome string :=
  match d with
  | [] => Raise ValueError
  | kv :: d' =>
      Return (fst (fold_left
                     (fun best item => if Qltb (snd best) (snd item) then item else best)
                     d' kv))
  end.

Definition detect_repeating_pattern (self : AIAgent) : option string :=
  if (pattern_length self <=? length (last_moves self))%nat then
    let pattern := suffix (pattern_length self) (last_moves self) in
    let pattern_index :=
      fold_left
        (fun acc i =>
           if list_eqb (slice i (pattern_length self) (opponent_history self)) pattern
           then acc + 1 else acc)
        (range (length (opponent_history self) - pattern_length self)) 0 in
    if (2 <=? pattern_index)%nat then
      let next_index := pattern_length self mod 3 in
      if (next_index <? length (last_moves self))%nat then
        match nth_error (last_moves self) next_index with
        | Some m => Some (get_counter_move m)
        | None => None
        end
      else None
    else None
  else None.

Definition _would_win (bot_move player_move : string) : outcome bool :=
  if bot_move =? player_move then Return false
  else if bot_move =? "bomb" then Return true
  else if player_move =? "bomb" then Return false
  else bind_outcome (rules bot_move) (fun beaten => Return (beaten =? player_move)).

(** [xs[i]] for a position that is not negative. *)
Definition get_item (xs : list string) (i : nat) : outcome string :=
  match nth_error xs i with
  | Some x => Return x
  | None => Raise IndexError
  end.

(** [enumerate(xs)]. *)
Definition enumerate (xs : list string) : list (nat * string) :=
  combine (seq 0 (length xs)) xs.

(** [sum(1 for i, move in enumerate(self.move_history)
           if self._would_win(move, self.opponent_history[i]))]. *)
Definition count_bot_wins (self : AIAgent) : outcome nat :=
  fold_left
    (fun acc im =>
       bind_outcome acc (fun n =>
       bind_outcome (get_item (opponent_history self) (fst im)) (fun player_move =>
       bind_outcome (_would_win (snd im) player_move) (fun won =>
       Return (if won then n + 1 else n)))))
    (enumerate (move_history self)) (Return 0).

(** The body of [get_ai_move] is embedded block by block, one definition for
    each of the four strategies its comments delimit. A block that can end
    the call with [return] yields the returned move, or says that the call
    goes on. *)

(** Strategy 1, pattern detection: [Some m] when the call returns [m]. The
    draw is consumed only when [pattern_move] is true, [and] being lazy. *)
Definition strategy_pattern (self : AIAgent) : M (option string) :=
  let pattern_move := detect_repeating_pattern self in
  if truthy pattern_move then
    x <- random_random ;;
    if Qltb x float_0_6 then ret pattern_move else ret None
  else ret None.

(** Strategy 2, counter the most used move: the value of [counter]. *)
Definition strategy_counter (self : AIAgent) : outcome string :=
  bind_outcome (analyze_patterns self) (fun patterns =>
  bind_outcome (max_by_value patterns) (fun most_used_move =>
  Return (get_counter_move most_used_move))).

(** Strategy 3, bomb usage: [true] when the call returns ["bomb"]. *)
Definition strategy_bomb (self : AIAgent) (bot_bomb_used : bool) : M bool :=
  if negb bot_bomb_used && (2 <=? length (opponent_history self))%nat then
    bot_wins <- lift (count_bot_wins self) ;;
    if (2 <=? length (opponent_history self))%nat
       && (bot_wins <? length (opponent_history self) / 2)%nat
    then
      x <- random_random ;;
      if Qltb x float_0_4 then ret true else ret false
    else ret false
  else ret false.

(** Strategy 4, the decision by difficulty, and the fallback. *)
Definition strategy_difficulty (self : AIAgent) (counter : string) : M string :=
  if difficulty self =? "easy" then
    x <- random_random ;;
    if Qltb x float_0_3 then ret counter
    else random_choice ["rock"; "paper"; "scissors"]
  else if difficulty self =? "medium" then
    x <- random_random ;;
    if Qltb x float_0_6 then ret counter
    else random_choice ["rock"; "paper"; "scissors"]
  else if difficulty self =? "hard" then
    x <- random_random ;;
    if Qltb x float_0_8 then
      y <- random_random ;;
      if Qltb y float_0_6 then ret counter
      else
        let weak_to_counter := get_counter_move counter in
        ret weak_to_counter
    else random_choice ["rock"; "paper"; "scissors"]
  else if difficulty self =? "expert" then
    x <- random_random ;;
    if Qltb x float_0_9 then
      y <- random_random ;;
      if Qltb y float_0_7 then ret counter
      else
        let meta_counter := get_counter_move counter in
        ret (get_counter_move meta_counter)
    else random_choice ["rock"; "paper"; "scissors"]
  else ret counter.

(** [player_bomb_used] is a parameter of the method that its body never
    reads. *)
Definition get_ai_move (player_bomb_used bot_bomb_used : bool) : M string :=
  self <- get_self ;;
  returned <- strategy_pattern self ;;
  match returned with
  | Some pattern_move => ret pattern_move
  | None =>
      counter <- lift (strategy_counter self) ;;
      use_bomb <- strategy_bomb self bot_bomb_used ;;
      if use_bomb then ret "bomb"
      else strategy_difficulty self counter
  end.

Definition reset : M unit :=
  modify_self (fun s => set_move_history s []) ;;
  modify_self (fun s => set_opponent_history s []) ;;
  modify_self (fun s => set_move_patterns s []) ;;
  modify_self (fun s => set_last_moves s []).

(* ------------------------------------------------------------------------- *)
(** ** main.py: the bot's move of one round *)

(** The call of [get_ai_move] in the round loop of [main] and the fallback
    that follows it; returns the move the bot plays and the game state with
    the bot's bomb flag updated. *)
Definition main_bot_move (state : GameState) : M (string * GameState) :=
  bot_move <- get_ai_move (user_bomb_used state) (bot_bomb_used state) ;;
  if (bot_move =? "bomb") && bot_bomb_used state then
    bot_move' <- random_choice ["rock"; "paper"; "scissors"] ;;
    ret (bot_move', state)
  else if bot_move =? "bomb" then
    ret (bot_move,
         mkGameState (round state) (user_score state) (bot_score state)
                     (user_bomb_used state) true)
  else ret (bot_move, state).

(** One iteration of the round loop of [main], without the display: the
    line typed by the player, of ASCII characters, is validated, the bot
    moves, the round is resolved and scored, and the agent records it. An
    invalid line only advances the round counter. *)
Definition main_round (line : string) (state : GameState) : M GameState :=
  let user_input := lower (strip line) in
  let val := validate_move user_input (user_bomb_used state) in
  if negb (valid val) then
    ret (mkGameState (round state + 1) (user_score state) (bot_score state)
                     (user_bomb_used state) (bot_bomb_used state))
  else
    match move val with
    | None => raise (KeyError "move")
    | Some user_move =>
        let state1 :=
          if user_move =? "bomb" then
            mkGameState (round state) (user_score state) (bot_score state)
                        true (bot_bomb_used state)
          else state in
        played <- main_bot_move state1 ;;
        let bot_move := fst played in
        let state2 := snd played in
        winner <- lift (resolve_round user_move bot_move) ;;
        let state3 := update_game_state state2 winner in
        update_history user_move bot_move ;;
        ret state3
    end.

(** The round loop of [main], [while state.round <= 3], without the display.
    [lines] is what the player types, line by line, and [read] the number of
    lines read so far: each round reads the line of the move, and a round
    played on a valid move reads one line more, the one that confirms the
    next round. The loop ends with the state and the number of lines read;
    [None] stands for a loop that [fuel] iterations did not end. *)
Fixpoint main_loop (fuel : nat) (lines : nat -> string) (read : nat)
  (state : GameState) : M (option (GameState * nat)) :=
  if (round state <=? 3)%nat then
    match fuel with
    | 0 => ret None
    | S fuel' =>
        let line := lines read in
        state' <- main_round line state ;;
        let read' :=
          if valid (validate_move (lower (strip line)) (user_bomb_used state))
          then S (S read) else S read in
        main_loop fuel' lines read' state'
    end
  else ret (Some (state, read)).

(** [select_difficulty], without the display: lines, of ASCII characters,
    are read until one is, once stripped, a digit from 1 to 4; the result is the difficulty and the
    number of lines read, [None] when [fuel] lines held no such choice. *)
Fixpoint select_difficulty (fuel : nat) (lines : nat -> string) (read : nat)
  : option (string * nat) :=
  match fuel with
  | 0 => None
  | S fuel' =>
      let choice := strip (lines read) in
      if choice =? "1" then Some ("easy", S read)
      else if choice =? "2" then Some ("medium", S read)
      else if choice =? "3" then Some ("hard", S read)
      else if choice =? "4" then Some ("expert", S read)
      else select_difficulty fuel' lines (S read)
  end.

(* ========================================================================= *)
(** * Notions used in the statements *)

(** Cyclic dominance: rock beats scissors, scissors beats paper, paper beats
    rock. *)
Definition dominates (a b : string) : bool :=
  ((a =? "rock") && (b =? "scissors"))
  || ((a =? "scissors") && (b =? "paper"))
  || ((a =? "paper") && (b =? "rock")).

(** The world after the rounds of [rounds], each a pair of the player's move
    and the bot's move, have been recorded in order. *)
Definition record_rounds (w : World) (rounds : list (string * string)) : World :=
  fold_left (fun w r => snd (update_history (fst r) (snd r) w)) rounds w.

(** What the histories of an agent must be once [rounds] have been recorded. *)
Definition history_invariant (rounds : list (string * string)) (a : AIAgent) : Prop :=
  let n := length rounds in
  opponent_history a = map fst rounds
  /\ move_history a = map snd rounds
  /\ length (opponent_history a) = n
  /\ length (move_history a) = n
  /\ (forall i pm bm, nth_error rounds i = Some (pm, bm) ->
        nth_error (opponent_history a) i = Some pm
        /\ nth_error (move_history a) i = Some bm)
  /\ last_moves a = skipn (n - 10) (opponent_history a)
  /\ length (last_moves a) = Nat.min n 10.

(** The three facts the other parts of [history_invariant] follow from. *)
Definition history_core (rounds : list (string * string)) (a : AIAgent) : Prop :=
  opponent_history a = map fst rounds
  /\ move_history a = map snd rounds
  /\ last_moves a = skipn (length rounds - 10) (map fst rounds).

(** The number of start offsets of [history], the last one left out, at
    which the three entries that follow are [pattern]: the occurrences of
    the pattern elsewhere than at the end of the history. *)
Definition occurrences_elsewhere (pattern history : list string) : nat :=
  length (filter (fun i => list_eqb (slice i 3 history) pattern)
                 (seq 0 (length history - 3))).

(** The opponent history of the pattern example. *)
Definition rps_three_times : list string :=
  ["rock"; "paper"; "scissors"; "rock"; "paper"; "scissors";
   "rock"; "paper"; "scissors"].

(** Rounds in which the bot spent its bomb at once and the opponent, after
    an opening bomb, played rock five times. *)
Definition spent_bomb_rounds : list (string * string) :=
  [("bomb", "bomb"); ("rock", "paper"); ("rock", "paper"); ("rock", "paper");
   ("rock", "paper"); ("rock", "paper")].

(** A generator whose every draw is zero. *)
Definition zero_generator : Rng := mkRng (fun _ => 0 # 1) (fun _ => 0) 0.

(** The agent once [spent_bomb_rounds] are recorded. *)
Definition spent_bomb_agent : AIAgent :=
  Eval vm_compute in
    agent (record_rounds (mkWorld (AIAgent_init "expert") zero_generator)
                         spent_bomb_rounds).

(** Whether the engine's move wins the round: equal moves never do; failing
    that the engine's bomb always does; failing that the opponent's bomb
    means it does not; two distinct base moves are decided by dominance. *)
Definition engine_won (own opp : string) : bool :=
  if own =? opp then false
  else if own =? "bomb" then true
  else if opp =? "bomb" then false
  else dominates own opp.

(** The number of rounds the engine won, from the two histories. *)
Fixpoint wins (own opp : list string) : nat :=
  match own, opp with
  | m :: own', o :: opp' => (if engine_won m o then 1 else 0) + wins own' opp'
  | _, _ => 0
  end.

(** One of the four moves. *)
Definition is_valid (m : string) : Prop := In m VALID_MOVES.

(** The agent after two rounds that the engine lost. *)
Definition losing_agent : AIAgent :=
  Eval vm_compute in
    agent (record_rounds (mkWorld (AIAgent_init "hard") zero_generator)
                         [("rock", "scissors"); ("paper", "rock")]).

(** That agent in front of [zero_generator]. *)
Definition losing_world : World := mkWorld losing_agent zero_generator.

(** The final choice as the specification words it, from the first draw
    [u1], the second draw [u2] when it is a draw of the unit interval, and
    the move [pick] chosen among the base moves when the second draw is a
    choice. *)
Definition tier_choice (difficulty counter : string) (u1 u2 : Q) (pick : string)
  : string :=
  if difficulty =? "easy" then
    if Qltb u1 float_0_3 then counter else pick
  else if difficulty =? "medium" then
    if Qltb u1 float_0_6 then counter else pick
  else if difficulty =? "hard" then
    if Qltb u1 float_0_8 then
      if Qltb u2 float_0_6 then counter else get_counter_move counter
    else pick
  else if difficulty =? "expert" then
    if Qltb u1 float_0_9 then
      if Qltb u2 float_0_7 then counter
      else get_counter_move (get_counter_move counter)
    else pick
  else counter.

(** The move [random.choice] picks among the base moves at a drawn index. *)
Definition base_pick (i : nat) : string := nth (i mod 3) BASE_MOVES "rock".

(** A fresh agent of difficulty hard in front of [zero_generator]. *)
Definition fresh_hard_world : World := mkWorld (AIAgent_init "hard") zero_generator.

(** The number of entries of [l] equal to [x]. *)
Definition occurrences (x : string) (l : list string) : nat :=
  length (filter (String.eqb x) l).

(** The total the frequency analysis divides by: bombs are not counted. *)
Definition base_total (l : list string) : nat :=
  occurrences "rock" l + occurrences "paper" l + occurrences "scissors" l.

(** What holds of the game state and of the agent between two rounds of a
    game: the histories hold valid moves and have the same length, no more
    than the rounds gone by; the points given do not exceed the rounds
    recorded; and a player whose bomb flag is not set has played no bomb,
    one whose flag is set at most one. *)
Definition game_invariant (state : GameState) (a : AIAgent) : Prop :=
  Forall is_valid (move_history a)
  /\ Forall is_valid (opponent_history a)
  /\ length (move_history a) = length (opponent_history a)
  /\ length (opponent_history a) + 1 <= round state
  /\ user_score state + bot_score state <= length (opponent_history a)
  /\ occurrences "bomb" (opponent_history a) <= (if user_bomb_used state then 1 else 0)
  /\ occurrences "bomb" (move_history a) <= (if bot_bomb_used state then 1 else 0).

(** The four difficulties. *)
Definition DIFFICULTIES : list string := ["easy"; "medium"; "hard"; "expert"].

(** The four choices of the difficulty menu. *)
Definition is_choice (s : string) : bool :=
  (s =? "1") || (s =? "2") || (s =? "3") || (s =? "4").

(* ========================================================================= *)
(** * Properties *)

(* ------------------------------------------------------------------------- *)
(** ** The rule tools *)

Ltac each_move H :=
  cbn [In VALID_MOVES BASE_MOVES] in H;
  repeat (destruct H as [H | H]; [subst | ]); try contradiction.

Lemma get_counter_move_valid (m : string) : In (get_counter_move m) VALID_MOVES.
Proof.
  unfold get_counter_move, VALID_MOVES.
  repeat match goal with
         | |- context [if ?c then _ else _] => destruct c
         end; simpl; tauto.
Qed.

Lemma get_counter_move_base (m : string) :
  In m BASE_MOVES -> In (get_counter_move m) BASE_MOVES.
Proof.
  intros H. each_move H; simpl; tauto.
Qed.

Lemma base_is_valid (m : string) : In m BASE_MOVES -> In m VALID_MOVES.
Proof.
  intros H. each_move H; simpl; tauto.
Qed.

(** C7. For all moves [a], [b] of the four-move set: [resolve_round a b] is a
    draw exactly when [a = b] (bomb against bomb included); when exactly one
    side plays bomb that side wins; otherwise the cyclic dominance decides,
    the user winning when [a] dominates [b] and the bot otherwise. *)
Theorem resolve_round_spec (a b : string) :
  In a VALID_MOVES -> In b VALID_MOVES ->
  (resolve_round a b = Return "draw" <-> a = b)
  /\ (a = "bomb" -> b <> "bomb" -> resolve_round a b = Return "user")
  /\ (a <> "bomb" -> b = "bomb" -> resolve_round a b = Return "bot")
  /\ (a <> "bomb" -> b <> "bomb" -> a <> b ->
      resolve_round a b = Return (if dominates a b then "user" else "bot")).
Proof.
  intros Ha Hb. each_move Ha; each_move Hb;
    (repeat split; intros; try reflexivity; try congruence; try discriminate).
Qed.

Lemma resolve_round_spec_witness :
  In "paper" VALID_MOVES /\ In "scissors" VALID_MOVES
  /\ resolve_round "paper" "scissors" = Return "bot"
  /\ resolve_round "bomb" "scissors" = Return "user".
Proof.
  assert (Hp : In "paper" VALID_MOVES) by (simpl; tauto).
  assert (Hs : In "scissors" VALID_MOVES) by (simpl; tauto).
  assert (Hb : In "bomb" VALID_MOVES) by (simpl; tauto).
  split; [exact Hp | split; [exact Hs | split]].
  - destruct (resolve_round_spec "paper" "scissors" Hp Hs) as (_ & _ & _ & H).
    apply H; discriminate.
  - destruct (resolve_round_spec "bomb" "scissors" Hb Hs) as (_ & H & _).
    apply H; [reflexivity | discriminate].
Defined.

(** *** Normalisation of the raw input *)

Lemma lower_char_not_upper (c : ascii) : is_upper (lower_char c) = false.
Proof.
  destruct c as [[] [] [] [] [] [] [] []]; reflexivity.
Qed.

Lemma lower_upper_char (c : ascii) : lower_char (upper_char c) = lower_char c.
Proof.
  destruct c as [[] [] [] [] [] [] [] []]; reflexivity.
Qed.

Lemma lower_char_space (c : ascii) : is_space (lower_char c) = is_space c.
Proof.
  destruct c as [[] [] [] [] [] [] [] []]; reflexivity.
Qed.

Lemma lower_upper (s : string) : lower (upper s) = lower s.
Proof.
  induction s as [| c s IH]; simpl; [reflexivity |].
  now rewrite lower_upper_char, IH.
Qed.

Lemma lower_idempotent (s : string) : lower (lower s) = lower s.
Proof.
  induction s as [| c s IH]; simpl; [reflexivity |].
  rewrite IH. f_equal. unfold lower_char at 1.
  now rewrite lower_char_not_upper.
Qed.

Lemma lower_app (s t : string) : lower (s ++ t) = lower s ++ lower t.
Proof.
  induction s as [| c s IH]; simpl; [reflexivity | now rewrite IH].
Qed.

Lemma all_space_lower (s : string) : all_space (lower s) = all_space s.
Proof.
  induction s as [| c s IH]; simpl; [reflexivity |].
  now rewrite lower_char_space, IH.
Qed.

Lemma lstrip_all_space (s : string) : all_space s = true -> lstrip s = "".
Proof.
  induction s as [| c s IH]; simpl; [reflexivity |].
  intros H. apply andb_prop in H as [Hc Hs]. rewrite Hc. auto.
Qed.

Lemma rstrip_all_space (s : string) : all_space s = true -> rstrip s = "".
Proof.
  induction s as [| c s IH]; simpl; [reflexivity |].
  intros H. apply andb_prop in H as [Hc Hs]. rewrite (IH Hs), Hc. reflexivity.
Qed.

Lemma lstrip_app_left (l s : string) :
  all_space l = true -> lstrip (l ++ s) = lstrip s.
Proof.
  induction l as [| c l IH]; simpl; [reflexivity |].
  intros H. apply andb_prop in H as [Hc Hl]. rewrite Hc. auto.
Qed.

Lemma rstrip_app_right (s r : string) :
  all_space r = true -> rstrip (s ++ r) = rstrip s.
Proof.
  intros Hr. induction s as [| c s IH]; simpl.
  - now apply rstrip_all_space.
  - now rewrite IH.
Qed.

Lemma strip_app_right (s r : string) :
  all_space r = true -> strip (s ++ r) = strip s.
Proof.
  intros Hr. unfold strip. induction s as [| c s IH]; simpl.
  - now rewrite (lstrip_all_space r Hr).
  - destruct (is_space c); [exact IH |].
    change (String c (s ++ r)) with (String c s ++ r).
    now apply rstrip_app_right.
Qed.

Lemma strip_pad (l s r : string) :
  all_space l = true -> all_space r = true -> strip (l ++ s ++ r) = strip s.
Proof.
  intros Hl Hr. unfold strip. rewrite (lstrip_app_left l (s ++ r) Hl).
  now apply strip_app_right.
Qed.

Lemma mem_spec (x : string) (xs : list string) : mem x xs = true <-> In x xs.
Proof.
  unfold mem. rewrite existsb_exists. split.
  - intros (y & Hy & E). apply String.eqb_eq in E. now subst.
  - intros H. exists x. split; [exact H | apply String.eqb_refl].
Qed.

(** C8. [validate_move] first normalises its input with
    [move.lower().strip()]. Whatever text the input is and whatever its
    normal form: when the normal form is not one of the four moves the input
    is rejected with the reason for an unrecognised move; when it is bomb
    and [bomb_used] is set the input is rejected with the reason for a
    replayed bomb; otherwise the input is accepted with its normal form as
    the move. On ASCII input the normal form is [strip (lower raw)], and the
    answer is insensitive to letter case and to surrounding whitespace. The
    function is pure: its result depends on its two arguments only and it
    records nothing. *)
Theorem validate_move_spec :
  (forall (normalise : string -> string) (raw : string) (bomb_used : bool),
      let m := normalise raw in
      (~ In m VALID_MOVES ->
       validate_move_with normalise raw bomb_used
       = mkValidation false None (Some "Invalid move"))
      /\ (m = "bomb" -> bomb_used = true ->
          validate_move_with normalise raw bomb_used
          = mkValidation false None (Some "Bomb already used"))
      /\ (In m VALID_MOVES -> m <> "bomb" \/ bomb_used = false ->
          validate_move_with normalise raw bomb_used = mkValidation true (Some m) None))
  /\ (forall (raw : string) (bomb_used : bool),
      is_ascii raw = true ->
      let m := strip (lower raw) in
      validate_move raw bomb_used
      = validate_move_with (fun s => strip (lower s)) raw bomb_used
      /\ (~ In m VALID_MOVES ->
          validate_move raw bomb_used = mkValidation false None (Some "Invalid move"))
      /\ (m = "bomb" -> bomb_used = true ->
          validate_move raw bomb_used
          = mkValidation false None (Some "Bomb already used"))
      /\ (In m VALID_MOVES -> m <> "bomb" \/ bomb_used = false ->
          validate_move raw bomb_used = mkValidation true (Some m) None)
      /\ validate_move (upper raw) bomb_used = validate_move raw bomb_used
      /\ validate_move (lower raw) bomb_used = validate_move raw bomb_used
      /\ (forall l r, all_space l = true -> all_space r = true ->
            validate_move (l ++ raw ++ r) bomb_used = validate_move raw bomb_used)).
Proof.
  assert (Hwith : forall normalise raw bomb_used,
             let m := normalise raw in
             (~ In m VALID_MOVES ->
              validate_move_with normalise raw bomb_used
              = mkValidation false None (Some "Invalid move"))
             /\ (m = "bomb" -> bomb_used = true ->
                 validate_move_with normalise raw bomb_used
                 = mkValidation false None (Some "Bomb already used"))
             /\ (In m VALID_MOVES -> m <> "bomb" \/ bomb_used = false ->
                 validate_move_with normalise raw bomb_used
                 = mkValidation true (Some m) None)).
  { intros normalise raw bomb_used m. repeat split.
    - intros Hn. unfold validate_move_with. fold m.
      destruct (mem m VALID_MOVES) eqn:E; [| reflexivity].
      apply mem_spec in E. contradiction.
    - intros Hm Hb. unfold validate_move_with. fold m. rewrite Hm, Hb. reflexivity.
    - intros Hin Hor. unfold validate_move_with. fold m.
      apply mem_spec in Hin. rewrite Hin. simpl.
      destruct Hor as [Hne | Hb].
      + apply String.eqb_neq in Hne. now rewrite Hne.
      + rewrite Hb, andb_false_r. reflexivity. }
  split; [exact Hwith |].
  intros raw bomb_used _ m.
  destruct (Hwith (fun s => strip (lower s)) raw bomb_used) as (H1 & H2 & H3).
  split; [reflexivity |]. split; [exact H1 |]. split; [exact H2 |].
  split; [exact H3 |]. split; [| split].
  - unfold validate_move. now rewrite lower_upper.
  - unfold validate_move. now rewrite lower_idempotent.
  - intros l r Hl Hr. unfold validate_move.
    rewrite !lower_app, strip_pad; [reflexivity | |]; now rewrite all_space_lower.
Qed.

Lemma validate_move_spec_witness :
  validate_move "  RoCk " false = mkValidation true (Some "rock") None
  /\ validate_move " BOMB" true = mkValidation false None (Some "Bomb already used")
  /\ validate_move "lizard" false = mkValidation false None (Some "Invalid move").
Proof.
  destruct validate_move_spec as [_ Hascii].
  split; [| split].
  - destruct (Hascii "  RoCk " false eq_refl) as (_ & _ & _ & H & _).
    apply H; [simpl; tauto | left; discriminate].
  - destruct (Hascii " BOMB" true eq_refl) as (_ & _ & H & _).
    apply H; reflexivity.
  - destruct (Hascii "lizard" false eq_refl) as (_ & H & _).
    apply H. simpl. intros [E | [E | [E | [E | []]]]]; discriminate.
Defined.

(* ------------------------------------------------------------------------- *)
(** ** The histories *)

Lemma history_core_invariant rounds a :
  history_core rounds a -> history_invariant rounds a.
Proof.
  intros (Ho & Hm & Hl). unfold history_invariant.
  rewrite Ho, Hm, Hl, !length_map, length_skipn, length_map.
  repeat split; try lia.
  - rewrite nth_error_map, H. reflexivity.
  - rewrite nth_error_map, H. reflexivity.
Qed.

Lemma update_history_world pm bm w :
  update_history pm bm w =
  (Return tt,
   mkWorld
     (mkAIAgent (difficulty (agent w))
                (move_history (agent w) ++ [bm])
                (opponent_history (agent w) ++ [pm])
                (move_patterns (agent w))
                (if (10 <? length (last_moves (agent w) ++ [pm]))%nat
                 then tl (last_moves (agent w) ++ [pm])
                 else last_moves (agent w) ++ [pm])
                (pattern_length (agent w)))
     (generator w)).
Proof.
  unfold update_history, bind, modify_self, get_self, ret; simpl.
  destruct (10 <? length (last_moves (agent w) ++ [pm]))%nat; reflexivity.
Qed.

Lemma tl_skipn {A} (k : nat) (l : list A) : tl (skipn k l) = skipn (S k) l.
Proof.
  revert l. induction k as [| k IH]; intros [| x l]; try reflexivity.
  apply (IH l).
Qed.

Lemma skipn_app_le {A} (k : nat) (l t : list A) :
  k <= length l -> (skipn k l ++ t = skipn k (l ++ t))%list.
Proof.
  intros H. rewrite skipn_app.
  replace (k - length l) with 0 by lia. reflexivity.
Qed.

Lemma history_core_step rounds pm bm w :
  history_core rounds (agent w) ->
  history_core (rounds ++ [(pm, bm)])%list (agent (snd (update_history pm bm w))).
Proof.
  intros (Ho & Hm & Hl). rewrite update_history_world. unfold history_core; simpl.
  rewrite Ho, Hm, Hl, !map_app, length_app. simpl.
  repeat split.
  assert (Hlen : length (map fst rounds) = length rounds) by apply length_map.
  rewrite length_app, length_skipn, Hlen. simpl.
  rewrite skipn_app_le by lia.
  destruct (Nat.ltb_spec 10 (length rounds - (length rounds - 10) + 1)) as [Hgt | Hle].
  - rewrite tl_skipn. f_equal. lia.
  - f_equal. lia.
Qed.

Lemma record_rounds_app w rounds r :
  record_rounds w (rounds ++ [r])%list =
  snd (update_history (fst r) (snd r) (record_rounds w rounds)).
Proof.
  unfold record_rounds. rewrite fold_left_app. reflexivity.
Qed.

Lemma record_rounds_core w rounds :
  history_core [] (agent w) -> history_core rounds (agent (record_rounds w rounds)).
Proof.
  intros H0. induction rounds as [| [pm bm] rounds IH] using rev_ind.
  - exact H0.
  - rewrite record_rounds_app. now apply history_core_step.
Qed.

Lemma record_rounds_generator w rounds :
  generator (record_rounds w rounds) = generator w.
Proof.
  induction rounds as [| r rounds IH] using rev_ind; [reflexivity |].
  rewrite record_rounds_app, update_history_world. exact IH.
Qed.

Lemma record_rounds_static w rounds :
  difficulty (agent (record_rounds w rounds)) = difficulty (agent w)
  /\ pattern_length (agent (record_rounds w rounds)) = pattern_length (agent w).
Proof.
  induction rounds as [| r rounds IH] using rev_ind; [split; reflexivity |].
  rewrite record_rounds_app, update_history_world. exact IH.
Qed.

(** *** What a call of [get_ai_move] leaves behind *)

Lemma random_choice_base w :
  exists m, In m BASE_MOVES
            /\ random_choice ["rock"; "paper"; "scissors"] w
               = (Return m, mkWorld (agent w) (advance (generator w))).
Proof.
  unfold random_choice.
  set (i := index_draws (generator w) (cursor (generator w)) mod 3).
  assert (Hi : i < 3) by (apply Nat.mod_upper_bound; discriminate).
  exists (nth i ["rock"; "paper"; "scissors"] "rock"). split.
  - destruct i as [| [| [| i]]]; simpl; try tauto. lia.
  - reflexivity.
Qed.

Ltac step_choice w :=
  let m := fresh "m" in
  let Hin := fresh "Hin" in
  let E := fresh "E" in
  destruct (random_choice_base w) as (m & Hin & E); rewrite E; clear E.

Lemma strategy_pattern_agent a w :
  agent (snd (strategy_pattern a w)) = agent w.
Proof.
  unfold strategy_pattern, bind, random_random, ret.
  destruct (truthy (detect_repeating_pattern a)); [| reflexivity].
  simpl. destruct (Qltb _ _); reflexivity.
Qed.

Lemma strategy_bomb_agent a b w :
  agent (snd (strategy_bomb a b w)) = agent w.
Proof.
  unfold strategy_bomb, bind, lift, random_random, ret.
  destruct (negb b && _); [| reflexivity].
  destruct (count_bot_wins a); [| reflexivity].
  destruct (_ && _); [| reflexivity].
  simpl. destruct (Qltb _ _); reflexivity.
Qed.

Lemma strategy_difficulty_result a counter w :
  exists m w',
    strategy_difficulty a counter w = (Return m, w')
    /\ agent w' = agent w
    /\ (m = counter \/ m = get_counter_move counter
        \/ m = get_counter_move (get_counter_move counter) \/ In m BASE_MOVES).
Proof.
  unfold strategy_difficulty, bind, random_random, ret.
  repeat match goal with
         | |- context [random_choice _ ?w] => step_choice w; cbv beta iota zeta
         | |- context [if ?c then _ else _] => destruct c; cbv beta iota zeta
         end;
    (do 2 eexists; split; [reflexivity | split; [reflexivity | tauto]]).
Qed.

Lemma get_ai_move_agent p b w : agent (snd (get_ai_move p b w)) = agent w.
Proof.
  unfold get_ai_move, bind, get_self, lift, ret.
  pose proof (strategy_pattern_agent (agent w) w) as H1.
  destruct (strategy_pattern (agent w) w) as [[[m |] | e] w1]; simpl in *; try exact H1.
  destruct (strategy_counter (agent w)) as [counter | e]; [| exact H1].
  pose proof (strategy_bomb_agent (agent w) b w1) as H3.
  destruct (strategy_bomb (agent w) b w1) as [[[] | e] w2]; simpl in *;
    try congruence.
  destruct (strategy_difficulty_result (agent w) counter w2) as (m & w' & E & Ha & _).
  rewrite E. simpl. congruence.
Qed.

(** C6. From a fresh engine and from a reset one alike, once the rounds of
    [rounds] have been recorded by [update_history] the opponent history and
    the engine's own history are the players' and the bot's moves of those
    rounds in order, both of length [length rounds] and aligned by index, and
    the recency window is the suffix of the opponent history of length
    [min (length rounds) 10]; each call of [update_history] returns and makes
    each history one element longer; a call of [get_ai_move] leaves the
    agent, and so its histories and window, unchanged. *)
Theorem history_invariant_holds (rounds : list (string * string)) :
  (forall d g,
      history_invariant rounds
        (agent (record_rounds (mkWorld (AIAgent_init d) g) rounds)))
  /\ (forall w,
      history_invariant rounds (agent (record_rounds (snd (reset w)) rounds)))
  /\ (forall pm bm w,
      fst (update_history pm bm w) = Return tt
      /\ length (opponent_history (agent (snd (update_history pm bm w))))
         = S (length (opponent_history (agent w)))
      /\ length (move_history (agent (snd (update_history pm bm w))))
         = S (length (move_history (agent w))))
  /\ (forall p b w, agent (snd (get_ai_move p b w)) = agent w).
Proof.
  split; [| split; [| split]].
  - intros d g. apply history_core_invariant, record_rounds_core.
    repeat split.
  - intros w. apply history_core_invariant, record_rounds_core.
    repeat split.
  - intros pm bm w. rewrite update_history_world. simpl.
    rewrite !length_app. simpl. repeat split; lia.
  - intros p b w. apply get_ai_move_agent.
Qed.

(** C10. Two calls of [get_ai_move] on the same agent with the same draws
    that differ in the first argument only have the same result and leave
    the same world. *)
Theorem get_ai_move_ignores_player_flag (p1 p2 b : bool) (w : World) :
  get_ai_move p1 b w = get_ai_move p2 b w.
Proof.
  reflexivity.
Qed.

(* ------------------------------------------------------------------------- *)
(** ** The frequency analysis on a history of bombs *)

(** C1. The claim fails on the code. After the single round in which the
    player played bomb, whatever the bot played, the frequency analysis
    divides by a total of zero: [analyze_patterns] raises
    [ZeroDivisionError], and so does [get_ai_move] for every difficulty,
    every pair of flags and every generator, leaving the world as it was. *)
Theorem get_ai_move_raises_after_bomb (d m : string) (p b : bool) (g : Rng) :
  let w := record_rounds (mkWorld (AIAgent_init d) g) [("bomb", m)] in
  opponent_history (agent w) = ["bomb"]
  /\ analyze_patterns (agent w) = Raise ZeroDivisionError
  /\ get_ai_move p b w = (Raise ZeroDivisionError, w).
Proof.
  repeat split.
Qed.

Lemma strategy_bomb_short a b w :
  length (opponent_history a) < 2 -> strategy_bomb a b w = (Return false, w).
Proof.
  intros H. unfold strategy_bomb.
  apply Nat.leb_gt in H. rewrite H, andb_false_r. reflexivity.
Qed.

Lemma get_ai_move_fresh d g p b :
  exists m,
    In m BASE_MOVES
    /\ fst (get_ai_move p b (mkWorld (AIAgent_init d) g)) = Return m
    /\ generator (snd (get_ai_move p b (mkWorld (AIAgent_init d) g)))
       = generator (snd (strategy_difficulty (AIAgent_init d) "paper"
                                             (mkWorld (AIAgent_init d) g))).
Proof.
  unfold get_ai_move, bind, get_self, lift, ret. cbn [agent].
  change (strategy_pattern (AIAgent_init d) (mkWorld (AIAgent_init d) g))
    with (Return (@None string), mkWorld (AIAgent_init d) g).
  cbv beta iota.
  change (strategy_counter (AIAgent_init d)) with (Return "paper").
  rewrite strategy_bomb_short by (simpl; lia).
  cbv beta iota.
  destruct (strategy_difficulty_result (AIAgent_init d) "paper" (mkWorld (AIAgent_init d) g))
    as (m & w' & E & _ & Hm).
  rewrite E. exists m. repeat split.
  destruct Hm as [-> | [-> | [-> | H]]]; simpl; tauto.
Qed.

Lemma main_round_valid line state user_move :
  validate_move (lower (strip line)) (user_bomb_used state)
  = mkValidation true (Some user_move) None ->
  main_round line state =
  (played <- main_bot_move
               (if user_move =? "bomb" then
                  mkGameState (round state) (user_score state) (bot_score state)
                              true (bot_bomb_used state)
                else state) ;;
   winner <- lift (resolve_round user_move (fst played)) ;;
   update_history user_move (fst played) ;;
   ret (update_game_state (snd played) winner)).
Proof.
  intros E. unfold main_round. rewrite E. reflexivity.
Qed.

Lemma main_bot_move_unused state w m w' :
  bot_bomb_used state = false ->
  get_ai_move (user_bomb_used state) false w = (Return m, w') ->
  (m =? "bomb") = false ->
  main_bot_move state w = (Return (m, state), w').
Proof.
  intros Hb E Hm. unfold main_bot_move, bind. rewrite Hb, E, Hm. reflexivity.
Qed.

(** C5. The claim fails on the code. In a game played through the round loop
    of [main] from a fresh agent of any difficulty and with any generator,
    the player opens with bomb: the first round completes, the bot having
    played a base move, and in the second round, on the valid line rock, the
    call of [get_ai_move] returns no move: [ZeroDivisionError] is raised. *)
Theorem main_second_round_raises_after_bomb (d : string) (g : Rng) :
  exists state1 w1 bot_move,
    main_round "bomb" GameState_init (mkWorld (AIAgent_init d) g) = (Return state1, w1)
    /\ In bot_move BASE_MOVES
    /\ opponent_history (agent w1) = ["bomb"]
    /\ move_history (agent w1) = [bot_move]
    /\ (forall p b, fst (get_ai_move p b w1) = Raise ZeroDivisionError)
    /\ fst (main_round "rock" state1 w1) = Raise ZeroDivisionError.
Proof.
  destruct (get_ai_move_fresh d g true false) as (m & Hm & E & _).
  pose proof (get_ai_move_agent true false (mkWorld (AIAgent_init d) g)) as Ha.
  destruct (get_ai_move true false (mkWorld (AIAgent_init d) g)) as [o w0] eqn:E0.
  simpl in E, Ha. subst o.
  assert (Hnb : (m =? "bomb") = false) by (each_move Hm; reflexivity).
  assert (Hres : resolve_round "bomb" m = Return "user") by (each_move Hm; reflexivity).
  set (st := mkGameState 1 0 0 true false).
  assert (R1 : main_round "bomb" GameState_init (mkWorld (AIAgent_init d) g)
               = (Return (update_game_state st "user"),
                  snd (update_history "bomb" m w0))).
  { rewrite (main_round_valid "bomb" GameState_init "bomb" eq_refl).
    change (if "bomb" =? "bomb" then _ else _) with st.
    unfold bind at 1.
    rewrite (main_bot_move_unused st _ m w0 eq_refl E0 Hnb).
    unfold bind, lift, ret. cbn [fst snd]. rewrite Hres.
    rewrite update_history_world. reflexivity. }
  exists (update_game_state st "user"), (snd (update_history "bomb" m w0)), m.
  split; [exact R1 |]. split; [exact Hm |].
  rewrite update_history_world. cbn [snd agent]. rewrite Ha.
  cbn [AIAgent_init difficulty move_history opponent_history
       move_patterns last_moves pattern_length app].
  split; [reflexivity |]. split; [reflexivity |]. split.
  - intros p b. reflexivity.
  - rewrite (main_round_valid "rock" _ "rock" eq_refl). reflexivity.
Qed.

(* ------------------------------------------------------------------------- *)
(** ** Strategy 1: the repeating pattern *)

Lemma fold_left_count {A} (f : A -> bool) (l : list A) (n : nat) :
  fold_left (fun acc i => if f i then acc + 1 else acc) l n
  = n + length (filter f l).
Proof.
  revert n. induction l as [| x l IH]; intros n; simpl; [lia |].
  rewrite IH. destruct (f x); simpl; lia.
Qed.

Lemma get_counter_move_nonempty (m : string) : (get_counter_move m =? "") = false.
Proof.
  pose proof (get_counter_move_valid m) as H.
  destruct (get_counter_move m); [| reflexivity].
  each_move H; discriminate.
Qed.

(** [detect_repeating_pattern] with a pattern length of three. *)
Lemma detect_repeating_pattern_three (a : AIAgent) :
  pattern_length a = 3 ->
  detect_repeating_pattern a =
  if (3 <=? length (last_moves a))%nat
     && (2 <=? occurrences_elsewhere (suffix 3 (last_moves a)) (opponent_history a))%nat
  then option_map get_counter_move (nth_error (last_moves a) 0)
  else None.
Proof.
  intros H3. unfold detect_repeating_pattern, occurrences_elsewhere, range.
  rewrite H3, fold_left_count. cbn [Nat.add Nat.modulo Nat.divmod fst snd Nat.sub].
  destruct (3 <=? length (last_moves a))%nat eqn:E3; [| reflexivity].
  cbn [andb].
  destruct (2 <=? _)%nat; [| reflexivity].
  apply Nat.leb_le in E3.
  destruct (last_moves a) as [| x l]; [simpl in E3; lia |].
  reflexivity.
Qed.

Lemma strategy_pattern_taken (a : AIAgent) (w : World) (m : string) :
  detect_repeating_pattern a = Some (get_counter_move m) ->
  Qltb (unit_draws (generator w) (cursor (generator w))) float_0_6 = true ->
  strategy_pattern a w
  = (Return (Some (get_counter_move m)), mkWorld (agent w) (advance (generator w))).
Proof.
  intros Hd Hq. unfold strategy_pattern, bind, random_random, ret.
  rewrite Hd. cbn [truthy]. rewrite get_counter_move_nonempty. cbn [negb].
  cbv zeta. rewrite Hq. reflexivity.
Qed.

Lemma pattern_branch (a : AIAgent) (p b : bool) (g : Rng) (first : string) :
  pattern_length a = 3 ->
  3 <= length (last_moves a) ->
  nth_error (last_moves a) 0 = Some first ->
  2 <= occurrences_elsewhere (suffix 3 (last_moves a)) (opponent_history a) ->
  Qltb (unit_draws g (cursor g)) float_0_6 = true ->
  detect_repeating_pattern a = Some (get_counter_move first)
  /\ get_ai_move p b (mkWorld a g)
     = (Return (get_counter_move first), mkWorld a (advance g)).
Proof.
  intros H3 Hlen Hfirst Hocc Hq.
  assert (Hd : detect_repeating_pattern a = Some (get_counter_move first)).
  { rewrite (detect_repeating_pattern_three a H3), Hfirst.
    apply Nat.leb_le in Hlen, Hocc. rewrite Hlen, Hocc. reflexivity. }
  split; [exact Hd |].
  unfold get_ai_move, bind, get_self. cbn [agent].
  rewrite (strategy_pattern_taken a (mkWorld a g) first Hd Hq). reflexivity.
Qed.

(** C2. When the recency window holds at least three entries and its last
    three entries occur at least twice elsewhere in the opponent history,
    then, the draw of the gate being below 0.6, [get_ai_move] returns the
    counter of the entry at index 0 of the window, for every pair of flags,
    having consumed that one draw. In particular, once nine rounds with the
    opponent moves rock, paper, scissors three times over are recorded, the
    pattern rock, paper, scissors occurs exactly twice elsewhere, the
    pattern is detected, and the call returns the counter of rock. When the
    draw of the gate is not below 0.6 the pattern step returns nothing and
    the call goes on, that draw consumed; and when the window holds fewer
    than three entries or its last three occur fewer than twice elsewhere,
    the pattern step returns nothing and consumes no draw. *)
Theorem repeating_pattern_step :
  (forall (a : AIAgent) (p b : bool) (g : Rng) (first : string),
      pattern_length a = 3 ->
      3 <= length (last_moves a) ->
      nth_error (last_moves a) 0 = Some first ->
      2 <= occurrences_elsewhere (suffix 3 (last_moves a)) (opponent_history a) ->
      Qltb (unit_draws g (cursor g)) float_0_6 = true ->
      get_ai_move p b (mkWorld a g)
      = (Return (get_counter_move first), mkWorld a (advance g)))
  /\ (forall (d : string) (g : Rng) (rounds : list (string * string)) (p b : bool),
      map fst rounds = rps_three_times ->
      let a := agent (record_rounds (mkWorld (AIAgent_init d) g) rounds) in
      suffix 3 (last_moves a) = ["rock"; "paper"; "scissors"]
      /\ occurrences_elsewhere (suffix 3 (last_moves a)) (opponent_history a) = 2
      /\ detect_repeating_pattern a = Some "paper"
      /\ (Qltb (unit_draws g (cursor g)) float_0_6 = true ->
          get_ai_move p b (mkWorld a g) = (Return "paper", mkWorld a (advance g))))
  /\ (forall (a : AIAgent) (g : Rng),
      pattern_length a = 3 ->
      3 <= length (last_moves a) ->
      2 <= occurrences_elsewhere (suffix 3 (last_moves a)) (opponent_history a) ->
      Qltb (unit_draws g (cursor g)) float_0_6 = false ->
      strategy_pattern a (mkWorld a g) = (Return None, mkWorld a (advance g)))
  /\ (forall (a : AIAgent) (w : World),
      pattern_length a = 3 ->
      length (last_moves a) < 3
      \/ occurrences_elsewhere (suffix 3 (last_moves a)) (opponent_history a) < 2 ->
      strategy_pattern a w = (Return None, w)).
Proof.
  split; [| split; [| split]].
  - intros a p b g first H3 Hlen Hfirst Hocc Hq.
    now apply pattern_branch.
  - intros d g rounds p b Hr a.
    assert (Hc : history_core rounds (agent (record_rounds (mkWorld (AIAgent_init d) g) rounds)))
      by (apply record_rounds_core; repeat split).
    fold a in Hc. destruct Hc as (Ho & _ & Hl).
    assert (Hn : length rounds = 9)
      by (rewrite <- (length_map fst), Hr; reflexivity).
    rewrite Hr in Ho, Hl. rewrite Hn in Hl. cbn in Hl.
    assert (H3 : pattern_length a = 3)
      by apply (record_rounds_static (mkWorld (AIAgent_init d) g) rounds).
    rewrite Ho, Hl.
    split; [reflexivity |]. split; [reflexivity |].
    assert (Hd : detect_repeating_pattern a = Some "paper").
    { rewrite (detect_repeating_pattern_three a H3), Ho, Hl. reflexivity. }
    split; [exact Hd |].
    intros Hq.
    apply (pattern_branch a p b g "rock"); try assumption.
    + rewrite Hl. simpl. lia.
    + rewrite Hl. reflexivity.
    + rewrite Ho, Hl. apply Nat.leb_le. reflexivity.
  - intros a g H3 Hlen Hocc Hq.
    assert (Hf : exists first, nth_error (last_moves a) 0 = Some first)
      by (destruct (last_moves a); [simpl in Hlen; lia | eexists; reflexivity]).
    destruct Hf as (first & Hfirst).
    assert (Hd : detect_repeating_pattern a = Some (get_counter_move first)).
    { rewrite (detect_repeating_pattern_three a H3), Hfirst.
      apply Nat.leb_le in Hlen, Hocc. rewrite Hlen, Hocc. reflexivity. }
    unfold strategy_pattern, bind, random_random, ret.
    rewrite Hd. cbn [truthy]. rewrite get_counter_move_nonempty. cbn [negb].
    cbv zeta. cbn [generator agent]. rewrite Hq. reflexivity.
  - intros a w H3 Hno.
    assert (Hd : detect_repeating_pattern a = None).
    { rewrite (detect_repeating_pattern_three a H3).
      destruct Hno as [Hlt | Hlt]; apply Nat.leb_gt in Hlt; rewrite Hlt;
        [reflexivity | now rewrite andb_false_r]. }
    unfold strategy_pattern. rewrite Hd. reflexivity.
Qed.

Lemma repeating_pattern_step_witness :
  let g := mkRng (fun _ => 1 # 2) (fun _ => 0) 0 in
  let rounds := map (fun pm => (pm, "rock")) rps_three_times in
  let a := agent (record_rounds (mkWorld (AIAgent_init "hard") g) rounds) in
  get_ai_move true false (mkWorld a g) = (Return "paper", mkWorld a (advance g)).
Proof.
  intros g rounds a.
  destruct repeating_pattern_step as [Hgen _].
  apply (Hgen a true false g "rock").
  - reflexivity.
  - vm_compute. lia.
  - reflexivity.
  - vm_compute. lia.
  - reflexivity.
Defined.

(** *** The pattern branch and the bomb that is already spent *)

Lemma main_bot_move_veto (state : GameState) (w w' : World) :
  bot_bomb_used state = true ->
  get_ai_move (user_bomb_used state) true w = (Return "bomb", w') ->
  exists m,
    In m BASE_MOVES
    /\ main_bot_move state w
       = (Return (m, state), mkWorld (agent w') (advance (generator w'))).
Proof.
  intros Hb E. unfold main_bot_move, bind. rewrite Hb, E.
  cbn [andb String.eqb Ascii.eqb Bool.eqb].
  destruct (random_choice_base w') as (m & Hin & Ec). rewrite Ec.
  exists m. split; [exact Hin | reflexivity].
Qed.

(** C9. When the entry at index 0 of the recency window is bomb and the last
    three entries of the window occur at least twice elsewhere in the
    opponent history, the pattern branch, its gate passing, returns the
    counter of bomb, which is bomb, whatever the two flags are. There is a
    history of valid moves, recorded from a fresh agent, on which
    [get_ai_move] called with [bot_bomb_used] set returns bomb. In [main],
    a bomb returned while the bot's bomb is spent is replaced by a move
    drawn among rock, paper and scissors, and the game state is kept. *)
Theorem pattern_branch_returns_spent_bomb :
  (forall (a : AIAgent) (p b : bool) (g : Rng),
      pattern_length a = 3 ->
      3 <= length (last_moves a) ->
      nth_error (last_moves a) 0 = Some "bomb" ->
      2 <= occurrences_elsewhere (suffix 3 (last_moves a)) (opponent_history a) ->
      Qltb (unit_draws g (cursor g)) float_0_6 = true ->
      get_ai_move p b (mkWorld a g) = (Return "bomb", mkWorld a (advance g)))
  /\ (exists (rounds : list (string * string)) (d : string) (g : Rng),
        Forall (fun r => In (fst r) VALID_MOVES /\ In (snd r) VALID_MOVES) rounds
        /\ In "bomb" (map snd rounds)
        /\ fst (get_ai_move true true
                  (record_rounds (mkWorld (AIAgent_init d) g) rounds))
           = Return "bomb")
  /\ (forall (state : GameState) (w w' : World),
        bot_bomb_used state = true ->
        get_ai_move (user_bomb_used state) true w = (Return "bomb", w') ->
        exists m,
          In m BASE_MOVES
          /\ main_bot_move state w
             = (Return (m, state), mkWorld (agent w') (advance (generator w')))).
Proof.
  split; [| split].
  - intros a p b g H3 Hlen Hfirst Hocc Hq.
    now apply (pattern_branch a p b g "bomb").
  - exists spent_bomb_rounds, "hard", (mkRng (fun _ => 0 # 1) (fun _ => 0) 0).
    split; [| split].
    + unfold spent_bomb_rounds, VALID_MOVES.
      repeat (apply Forall_cons; [simpl; tauto |]). apply Forall_nil.
    + simpl. tauto.
    + vm_compute. reflexivity.
  - apply main_bot_move_veto.
Qed.

Lemma pattern_branch_returns_spent_bomb_witness :
  get_ai_move true true (mkWorld spent_bomb_agent zero_generator)
  = (Return "bomb", mkWorld spent_bomb_agent (advance zero_generator))
  /\ exists m,
       In m BASE_MOVES
       /\ main_bot_move (mkGameState 3 1 1 true true)
                        (mkWorld spent_bomb_agent zero_generator)
          = (Return (m, mkGameState 3 1 1 true true),
             mkWorld spent_bomb_agent (advance (advance zero_generator))).
Proof.
  assert (H3 : pattern_length spent_bomb_agent = 3) by reflexivity.
  assert (Hlen : 3 <= length (last_moves spent_bomb_agent)) by (vm_compute; lia).
  assert (Hfirst : nth_error (last_moves spent_bomb_agent) 0 = Some "bomb")
    by reflexivity.
  assert (Hocc : 2 <= occurrences_elsewhere (suffix 3 (last_moves spent_bomb_agent))
                                            (opponent_history spent_bomb_agent))
    by (vm_compute; lia).
  assert (Hq : Qltb (unit_draws zero_generator (cursor zero_generator)) float_0_6 = true)
    by reflexivity.
  destruct pattern_branch_returns_spent_bomb as (Hgen & _ & Hveto).
  pose proof (Hgen spent_bomb_agent true true zero_generator H3 Hlen Hfirst Hocc Hq) as E.
  split; [exact E |].
  exact (Hveto (mkGameState 3 1 1 true true) (mkWorld spent_bomb_agent zero_generator)
               (mkWorld spent_bomb_agent (advance zero_generator)) eq_refl E).
Defined.

(* ------------------------------------------------------------------------- *)
(** ** Strategy 2: the frequencies *)

Lemma move_counts_step (x : string) (r p s : nat) :
  let mc := [("rock", r); ("paper", p); ("scissors", s)] in
  (if dict_mem x mc then dict_incr x mc else mc)
  = [("rock", r + (if "rock" =? x then 1 else 0));
     ("paper", p + (if "paper" =? x then 1 else 0));
     ("scissors", s + (if "scissors" =? x then 1 else 0))].
Proof.
  unfold dict_mem, dict_incr. cbn [existsb map fst snd orb].
  destruct ("rock" =? x) eqn:Er.
  { apply String.eqb_eq in Er. subst x. cbn [orb].
    change ("paper" =? "rock") with false. change ("scissors" =? "rock") with false.
    now rewrite !Nat.add_0_r. }
  destruct ("paper" =? x) eqn:Ep.
  { apply String.eqb_eq in Ep. subst x. cbn [orb].
    change ("scissors" =? "paper") with false.
    now rewrite !Nat.add_0_r. }
  destruct ("scissors" =? x) eqn:Es; cbn [orb]; now rewrite !Nat.add_0_r.
Qed.

Lemma move_counts_fold (l : list string) :
  forall r p s : nat,
    fold_left
      (fun mc move => if dict_mem move mc then dict_incr move mc else mc)
      l [("rock", r); ("paper", p); ("scissors", s)]
    = [("rock", r + occurrences "rock" l);
       ("paper", p + occurrences "paper" l);
       ("scissors", s + occurrences "scissors" l)].
Proof.
  unfold occurrences.
  induction l as [| x l IH]; intros r p s.
  - simpl. now rewrite !Nat.add_0_r.
  - cbn [fold_left]. rewrite (move_counts_step x r p s), IH.
    cbn [filter].
    destruct ("rock" =? x), ("paper" =? x), ("scissors" =? x);
      cbn [length];
      repeat match goal with
             | |- _ :: _ = _ :: _ => f_equal
             | |- (_, _) = (_, _) => f_equal
             end; lia.
Qed.

(** [analyze_patterns] on a history that is not empty: it raises exactly
    when the history holds no rock, paper or scissors. *)
Lemma analyze_patterns_nonempty (a : AIAgent) :
  opponent_history a <> [] ->
  let l := opponent_history a in
  analyze_patterns a =
  if (base_total l =? 0)%nat then Raise ZeroDivisionError
  else Return [("rock", Z.of_nat (occurrences "rock" l) # Pos.of_nat (base_total l));
               ("paper", Z.of_nat (occurrences "paper" l) # Pos.of_nat (base_total l));
               ("scissors",
                Z.of_nat (occurrences "scissors" l) # Pos.of_nat (base_total l))].
Proof.
  intros Hne l. unfold analyze_patterns. fold l.
  destruct l as [| x l'] eqn:El; [contradiction |].
  rewrite <- El. rewrite move_counts_fold.
  unfold dict_sum, base_total. cbn [fold_left snd Nat.add dict_comprehension].
  unfold py_div.
  destruct (_ =? 0)%nat; reflexivity.
Qed.

Lemma max_by_value_key (d : dict Q) (k : string) :
  max_by_value d = Return k -> In k (map fst d).
Proof.
  destruct d as [| kv d]; [discriminate |].
  unfold max_by_value. intros E. injection E as <-.
  assert (H : forall l best, In (fst best) (map fst (kv :: d)) ->
                             (forall x, In x l -> In (fst x) (map fst (kv :: d))) ->
                             In (fst (fold_left
                                        (fun best item =>
                                           if Qltb (snd best) (snd item) then item else best)
                                        l best))
                                (map fst (kv :: d))).
  { induction l as [| x l IH]; intros best Hb Hl; [exact Hb |].
    cbn [fold_left]. apply IH.
    - destruct (Qltb _ _); [apply Hl; left; reflexivity | exact Hb].
    - intros y Hy. apply Hl. right. exact Hy. }
  apply H.
  - left. reflexivity.
  - intros x Hx. right. now apply in_map.
Qed.

Lemma strategy_counter_base (a : AIAgent) (c : string) :
  strategy_counter a = Return c -> In c BASE_MOVES.
Proof.
  unfold strategy_counter.
  assert (Hd : forall d, analyze_patterns a = Return d
                         -> map fst d = ["rock"; "paper"; "scissors"]).
  { intros d. destruct (opponent_history a) as [| x l] eqn:El.
    - unfold analyze_patterns. rewrite El. intros E. injection E as <-. reflexivity.
    - assert (Hne : opponent_history a <> []) by (rewrite El; discriminate).
      rewrite (analyze_patterns_nonempty a Hne).
      destruct (_ =? 0)%nat; [discriminate |].
      intros E. injection E as <-. reflexivity. }
  destruct (analyze_patterns a) as [d | e]; [| discriminate].
  specialize (Hd d eq_refl). cbn [bind_outcome].
  destruct (max_by_value d) as [k | e] eqn:Ek; [| discriminate].
  cbn [bind_outcome]. intros E. injection E as <-.
  apply get_counter_move_base. apply max_by_value_key in Ek. now rewrite Hd in Ek.
Qed.

(* ------------------------------------------------------------------------- *)
(** ** Strategy 3: the timing of the bomb *)

Lemma _would_win_valid (own opp : string) :
  is_valid own -> is_valid opp -> _would_win own opp = Return (engine_won own opp).
Proof.
  unfold is_valid. intros Ho Hp. each_move Ho; each_move Hp; reflexivity.
Qed.

Lemma count_fold (opp : list string) (own : list string) :
  forall (k n : nat) (rest : list string),
    Forall is_valid own ->
    Forall is_valid rest ->
    skipn k opp = rest ->
    length own <= length rest ->
    fold_left
      (fun acc im =>
         bind_outcome acc (fun n =>
         bind_outcome (get_item opp (fst im)) (fun player_move =>
         bind_outcome (_would_win (snd im) player_move) (fun won =>
         Return (if won then n + 1 else n)))))
      (combine (seq k (length own)) own) (Return n)
    = Return (n + wins own rest).
Proof.
  induction own as [| m own IH]; intros k n rest Hown Hrest Hskip Hlen.
  - simpl. f_equal. lia.
  - destruct rest as [| o rest]; [simpl in Hlen; lia |].
    inversion Hown as [| ? ? Hm Hown']; subst.
    inversion Hrest as [| ? ? Ho Hrest']; subst.
    assert (Hk : nth_error opp k = Some o).
    { rewrite <- (firstn_skipn k opp) at 1.
      assert (Hl : length (firstn k opp) = k).
      { apply firstn_length_le.
        assert (length (skipn k opp) = S (length rest)) by (rewrite Hskip; reflexivity).
        rewrite length_skipn in H. lia. }
      rewrite nth_error_app2 by lia.
      rewrite Hl, Nat.sub_diag, Hskip. reflexivity. }
    cbn [length seq combine fold_left fst snd bind_outcome].
    unfold get_item at 2. rewrite Hk. cbn [bind_outcome].
    rewrite (_would_win_valid m o Hm Ho). cbn [bind_outcome].
    rewrite (IH (S k) _ rest Hown' Hrest').
    + f_equal. cbn [wins]. destruct (engine_won m o); lia.
    + rewrite <- tl_skipn, Hskip. reflexivity.
    + simpl in Hlen. lia.
Qed.

Lemma count_bot_wins_valid (a : AIAgent) :
  Forall is_valid (move_history a) ->
  Forall is_valid (opponent_history a) ->
  length (move_history a) = length (opponent_history a) ->
  count_bot_wins a = Return (wins (move_history a) (opponent_history a)).
Proof.
  intros Hm Ho Hlen. unfold count_bot_wins, enumerate.
  rewrite (count_fold (opponent_history a) (move_history a) 0 0 (opponent_history a));
    try assumption; try reflexivity. lia.
Qed.

Lemma strategy_pattern_falls_through (a : AIAgent) (w w1 : World) :
  strategy_pattern a w = (Return None, w1) -> agent w1 = agent w.
Proof.
  intros E. pose proof (strategy_pattern_agent a w) as H.
  rewrite E in H. exact H.
Qed.

(** [strategy_bomb] on histories of valid moves of equal length. *)
Lemma strategy_bomb_valid (a : AIAgent) (b : bool) (w : World) :
  Forall is_valid (move_history a) ->
  Forall is_valid (opponent_history a) ->
  length (move_history a) = length (opponent_history a) ->
  strategy_bomb a b w =
  if negb b
     && (2 <=? length (opponent_history a))%nat
     && (wins (move_history a) (opponent_history a)
         <? length (opponent_history a) / 2)%nat
  then (Return (Qltb (unit_draws (generator w) (cursor (generator w))) float_0_4),
        mkWorld (agent w) (advance (generator w)))
  else (Return false, w).
Proof.
  intros Hm Ho Hlen. unfold strategy_bomb, bind, lift, random_random, ret.
  rewrite (count_bot_wins_valid a Hm Ho Hlen).
  destruct (negb b); [| reflexivity].
  destruct (2 <=? length (opponent_history a))%nat; [| reflexivity].
  cbn [andb].
  destruct (wins _ _ <? _)%nat; [| reflexivity].
  cbv zeta. destruct (Qltb _ _); reflexivity.
Qed.

Lemma strategy_difficulty_not_bomb (a : AIAgent) (counter : string) (w : World) :
  In counter BASE_MOVES ->
  fst (strategy_difficulty a counter w) <> Return "bomb".
Proof.
  intros Hc.
  destruct (strategy_difficulty_result a counter w) as (m & w' & E & _ & Hm).
  rewrite E. cbn [fst]. intros E'. injection E' as ->.
  assert (Hb : In "bomb" BASE_MOVES).
  { destruct Hm as [<- | [Hm | [Hm | Hm]]]; try assumption.
    - rewrite Hm. now apply get_counter_move_base.
    - rewrite Hm. now do 2 apply get_counter_move_base. }
  each_move Hb; discriminate.
Qed.

(** C3. A past round counts as won by the engine as follows, on valid moves:
    equal moves never; otherwise the engine's bomb always; otherwise not
    when the opponent played bomb; otherwise by dominance. When the histories
    hold valid moves round by round, the pattern step has not returned and
    the frequency step has produced its counter, the bomb step does this and
    nothing else. The rounds won are counted. If the engine's bomb is not
    used, at least two rounds are recorded and the rounds won are strictly
    fewer than half the rounds (integer division), one draw is consumed:
    when it is below 0.4 [get_ai_move] returns bomb at once, whatever the
    difficulty, and when it is not the call goes on to the difficulty step
    and does not return bomb. If the engine's bomb is used, or fewer than
    two rounds are recorded, or the rounds won are at least half the rounds,
    no draw is consumed and the call goes on to the difficulty step and does
    not return bomb. *)
Theorem bomb_timing_step :
  (forall own opp : string,
      is_valid own -> is_valid opp ->
      _would_win own opp = Return (engine_won own opp)
      /\ (own = opp -> _would_win own opp = Return false)
      /\ (own = "bomb" -> opp <> "bomb" -> _would_win own opp = Return true)
      /\ (opp = "bomb" -> own <> "bomb" -> _would_win own opp = Return false)
      /\ (own <> "bomb" -> opp <> "bomb" ->
          _would_win own opp = Return (dominates own opp)))
  /\ (forall (p b : bool) (w w1 : World) (counter : string),
      Forall is_valid (move_history (agent w)) ->
      Forall is_valid (opponent_history (agent w)) ->
      length (move_history (agent w)) = length (opponent_history (agent w)) ->
      strategy_pattern (agent w) w = (Return None, w1) ->
      strategy_counter (agent w) = Return counter ->
      count_bot_wins (agent w)
      = Return (wins (move_history (agent w)) (opponent_history (agent w)))
      /\ (b = false ->
          2 <= length (opponent_history (agent w)) ->
          wins (move_history (agent w)) (opponent_history (agent w))
            < length (opponent_history (agent w)) / 2 ->
          Qltb (unit_draws (generator w1) (cursor (generator w1))) float_0_4 = true ->
          get_ai_move p b w
          = (Return "bomb", mkWorld (agent w) (advance (generator w1))))
      /\ (b = false ->
          2 <= length (opponent_history (agent w)) ->
          wins (move_history (agent w)) (opponent_history (agent w))
            < length (opponent_history (agent w)) / 2 ->
          Qltb (unit_draws (generator w1) (cursor (generator w1))) float_0_4 = false ->
          get_ai_move p b w
          = strategy_difficulty (agent w) counter
              (mkWorld (agent w) (advance (generator w1)))
          /\ fst (get_ai_move p b w) <> Return "bomb")
      /\ (b = true
          \/ length (opponent_history (agent w)) < 2
          \/ length (opponent_history (agent w)) / 2
             <= wins (move_history (agent w)) (opponent_history (agent w)) ->
          get_ai_move p b w = strategy_difficulty (agent w) counter w1
          /\ fst (get_ai_move p b w) <> Return "bomb")).
Proof.
  split.
  - intros own opp Ho Hp. split; [now apply _would_win_valid |].
    unfold is_valid in *.
    each_move Ho; each_move Hp;
      (repeat split; intros; try reflexivity; try congruence).
  - intros p b w w1 counter Hm Ho Hlen Hpat Hcounter.
    split; [now apply count_bot_wins_valid |].
    pose proof (strategy_counter_base (agent w) counter Hcounter) as Hbase.
    pose proof (strategy_pattern_falls_through (agent w) w w1 Hpat) as Hagent.
    assert (Hcall :
              get_ai_move p b w =
              if negb b
                 && (2 <=? length (opponent_history (agent w)))%nat
                 && (wins (move_history (agent w)) (opponent_history (agent w))
                     <? length (opponent_history (agent w)) / 2)%nat
              then
                if Qltb (unit_draws (generator w1) (cursor (generator w1))) float_0_4
                then (Return "bomb", mkWorld (agent w) (advance (generator w1)))
                else strategy_difficulty (agent w) counter
                       (mkWorld (agent w) (advance (generator w1)))
              else strategy_difficulty (agent w) counter w1).
    { unfold get_ai_move, bind, get_self, lift, ret.
      rewrite Hpat, Hcounter.
      rewrite (strategy_bomb_valid (agent w) b w1 Hm Ho Hlen), Hagent.
      destruct (_ && _); [| reflexivity].
      destruct (Qltb _ _); reflexivity. }
    split; [| split].
    + intros -> H2 Hwins Hq. rewrite Hcall.
      apply Nat.leb_le in H2. apply Nat.ltb_lt in Hwins.
      rewrite H2, Hwins, Hq. reflexivity.
    + intros -> H2 Hwins Hq. rewrite Hcall.
      apply Nat.leb_le in H2. apply Nat.ltb_lt in Hwins.
      rewrite H2, Hwins, Hq. cbn [negb andb].
      split; [reflexivity | now apply strategy_difficulty_not_bomb].
    + intros Hno. rewrite Hcall.
      assert (E : negb b
                  && (2 <=? length (opponent_history (agent w)))%nat
                  && (wins (move_history (agent w)) (opponent_history (agent w))
                      <? length (opponent_history (agent w)) / 2)%nat = false).
      { destruct Hno as [-> | [Hlt | Hge]].
        - reflexivity.
        - apply Nat.leb_gt in Hlt. rewrite Hlt. now rewrite andb_false_r.
        - apply Nat.ltb_ge in Hge. rewrite Hge. now rewrite andb_false_r. }
      rewrite E. split; [reflexivity | now apply strategy_difficulty_not_bomb].
Qed.

Lemma bomb_timing_step_witness :
  _would_win "bomb" "rock" = Return true
  /\ get_ai_move true false losing_world
     = (Return "bomb", mkWorld losing_agent (advance zero_generator))
  /\ fst (get_ai_move true true losing_world) <> Return "bomb".
Proof.
  destruct bomb_timing_step as [Hwin Hbomb].
  split.
  - assert (Hb : is_valid "bomb") by (unfold is_valid; simpl; tauto).
    assert (Hr : is_valid "rock") by (unfold is_valid; simpl; tauto).
    destruct (Hwin "bomb" "rock" Hb Hr) as (_ & _ & H & _).
    apply H; [reflexivity | discriminate].
  - assert (Hm : Forall is_valid (move_history (agent losing_world)))
      by (unfold losing_world, losing_agent; cbn [agent move_history];
          repeat (apply Forall_cons; [unfold is_valid; simpl; tauto |]);
          apply Forall_nil).
    assert (Ho : Forall is_valid (opponent_history (agent losing_world)))
      by (unfold losing_world, losing_agent; cbn [agent opponent_history];
          repeat (apply Forall_cons; [unfold is_valid; simpl; tauto |]);
          apply Forall_nil).
    assert (Hlen : length (move_history (agent losing_world))
                   = length (opponent_history (agent losing_world))) by reflexivity.
    assert (Hpat : strategy_pattern (agent losing_world) losing_world
                   = (Return None, losing_world)) by reflexivity.
    assert (Hc : strategy_counter (agent losing_world) = Return "paper")
      by reflexivity.
    split.
    + destruct (Hbomb true false losing_world losing_world "paper" Hm Ho Hlen Hpat Hc)
        as (_ & Hpos & _).
      apply Hpos.
      * reflexivity.
      * vm_compute. lia.
      * vm_compute. lia.
      * reflexivity.
    + destruct (Hbomb true true losing_world losing_world "paper" Hm Ho Hlen Hpat Hc)
        as (_ & _ & _ & Hno).
      apply Hno. left. reflexivity.
Defined.

(* ------------------------------------------------------------------------- *)
(** ** Strategy 4: the choice by difficulty *)

Lemma base_pick_in (i : nat) : In (base_pick i) BASE_MOVES.
Proof.
  unfold base_pick.
  assert (Hi : i mod 3 < 3) by (apply Nat.mod_upper_bound; discriminate).
  destruct (i mod 3) as [| [| [| k]]]; simpl; try tauto. lia.
Qed.

Lemma strategy_difficulty_tier (a : AIAgent) (counter : string) (w : World) :
  let g := generator w in
  fst (strategy_difficulty a counter w)
  = Return (tier_choice (difficulty a) counter
              (unit_draws g (cursor g)) (unit_draws g (S (cursor g)))
              (base_pick (index_draws g (S (cursor g))))).
Proof.
  unfold strategy_difficulty, tier_choice, bind, random_random, random_choice,
    ret, base_pick, BASE_MOVES.
  cbv zeta.
  repeat match goal with
         | |- context [if ?c then _ else _] =>
             destruct c;
             cbn [fst snd agent generator advance cursor unit_draws index_draws length]
         end; reflexivity.
Qed.

(** C4. When neither the pattern step nor the bomb step returns, the move
    [get_ai_move] returns is the one [tier_choice] words, the draws being
    read from the generator the bomb step leaves: for easy the counter when
    the first draw is below 0.3 and otherwise the move picked among rock,
    paper and scissors; for medium the same with 0.6; for hard, when the
    first draw is below 0.8, the counter if the second draw is below 0.6 and
    the counter of the counter otherwise, and the picked move when the first
    draw is not below 0.8; for expert likewise with 0.9, 0.7 and the counter
    of the counter of the counter; for any other difficulty the counter. The
    picked move is always one of rock, paper and scissors, and each of the
    three is picked for some index. *)
Theorem difficulty_step :
  (forall (p b : bool) (w w1 w2 : World) (counter : string),
      strategy_pattern (agent w) w = (Return None, w1) ->
      strategy_counter (agent w) = Return counter ->
      strategy_bomb (agent w) b w1 = (Return false, w2) ->
      let g := generator w2 in
      fst (get_ai_move p b w)
      = Return (tier_choice (difficulty (agent w)) counter
                  (unit_draws g (cursor g)) (unit_draws g (S (cursor g)))
                  (base_pick (index_draws g (S (cursor g))))))
  /\ (forall i, In (base_pick i) BASE_MOVES)
  /\ (forall m, In m BASE_MOVES -> exists i, i < 3 /\ base_pick i = m)
  /\ (forall counter u1 u2 pick,
        tier_choice "easy" counter u1 u2 pick
        = (if Qltb u1 float_0_3 then counter else pick)
        /\ tier_choice "medium" counter u1 u2 pick
           = (if Qltb u1 float_0_6 then counter else pick)
        /\ tier_choice "hard" counter u1 u2 pick
           = (if Qltb u1 float_0_8
              then if Qltb u2 float_0_6 then counter else get_counter_move counter
              else pick)
        /\ tier_choice "expert" counter u1 u2 pick
           = (if Qltb u1 float_0_9
              then if Qltb u2 float_0_7 then counter
                   else get_counter_move (get_counter_move counter)
              else pick)).
Proof.
  split; [| split; [| split]].
  - intros p b w w1 w2 counter Hpat Hcounter Hbomb g.
    unfold get_ai_move, bind, get_self, lift, ret.
    rewrite Hpat, Hcounter, Hbomb.
    apply strategy_difficulty_tier.
  - apply base_pick_in.
  - intros m Hm. each_move Hm.
    + exists 0. split; [lia | reflexivity].
    + exists 1. split; [lia | reflexivity].
    + exists 2. split; [lia | reflexivity].
  - intros counter u1 u2 pick. repeat split.
Qed.

Lemma difficulty_step_witness :
  fst (get_ai_move true false fresh_hard_world) = Return "paper".
Proof.
  destruct difficulty_step as (Hstep & _).
  exact (Hstep true false fresh_hard_world fresh_hard_world fresh_hard_world "paper"
               eq_refl eq_refl eq_refl).
Defined.

(* ------------------------------------------------------------------------- *)
(** ** When a call of [get_ai_move] returns *)

Lemma strategy_counter_returns (a : AIAgent) :
  opponent_history a = [] \/ base_total (opponent_history a) <> 0 ->
  exists counter, strategy_counter a = Return counter /\ In counter BASE_MOVES.
Proof.
  intros H. unfold strategy_counter.
  assert (Hd : exists d, analyze_patterns a = Return d
                         /\ map fst d = ["rock"; "paper"; "scissors"]).
  { destruct (opponent_history a) as [| x l] eqn:El.
    - unfold analyze_patterns. rewrite El. eexists. split; reflexivity.
    - destruct H as [H | H]; [discriminate |].
      assert (Hne : opponent_history a <> []) by (rewrite El; discriminate).
      rewrite (analyze_patterns_nonempty a Hne), El.
      apply Nat.eqb_neq in H. rewrite H. eexists. split; reflexivity. }
  destruct Hd as (d & Ed & Hk). rewrite Ed. cbn [bind_outcome].
  destruct (max_by_value d) as [k | e] eqn:Ek.
  - cbn [bind_outcome]. eexists. split; [reflexivity |].
    apply max_by_value_key in Ek. rewrite Hk in Ek.
    apply get_counter_move_base. exact Ek.
  - destruct d; [discriminate Hk | discriminate Ek].
Qed.

Lemma strategy_pattern_returns (a : AIAgent) (w : World) :
  exists r w', strategy_pattern a w = (Return r, w')
               /\ (forall m, r = Some m -> In m VALID_MOVES).
Proof.
  unfold strategy_pattern, bind, random_random, ret.
  assert (Hv : forall m, detect_repeating_pattern a = Some m -> In m VALID_MOVES).
  { unfold detect_repeating_pattern. intros m.
    repeat match goal with
           | |- context [if ?c then _ else _] => destruct c
           | |- context [match ?c with Some _ => _ | None => _ end] => destruct c
           end; try discriminate.
    intros E. injection E as <-. apply get_counter_move_valid. }
  destruct (truthy (detect_repeating_pattern a)).
  - cbv zeta. destruct (Qltb _ _); do 2 eexists; (split; [reflexivity |]).
    + exact Hv.
    + discriminate.
  - do 2 eexists. split; [reflexivity | discriminate].
Qed.

(** Whenever [get_ai_move] returns, the move is one of the four. *)
Lemma get_ai_move_returns_valid (p b : bool) (w : World) (m : string) :
  fst (get_ai_move p b w) = Return m -> In m VALID_MOVES.
Proof.
  unfold get_ai_move, bind, get_self, lift, ret.
  destruct (strategy_pattern_returns (agent w) w) as (r & w1 & E1 & Hr).
  rewrite E1. destruct r as [pm |].
  { cbn [fst]. intros E. injection E as <-. now apply Hr. }
  unfold strategy_counter.
  destruct (analyze_patterns (agent w)) as [d | e]; [| discriminate].
  cbn [bind_outcome].
  destruct (max_by_value d) as [k | e]; [| discriminate].
  cbn [bind_outcome].
  destruct (strategy_bomb (agent w) b w1) as [[[] | e] w2]; try discriminate.
  { cbn [fst]. intros E. injection E as <-. unfold VALID_MOVES. simpl. tauto. }
  destruct (strategy_difficulty_result (agent w) (get_counter_move k) w2)
    as (m' & w' & E & _ & Hm).
  rewrite E. cbn [fst]. intros E'. injection E' as <-.
  destruct Hm as [-> | [-> | [-> | Hm]]];
    try apply get_counter_move_valid. now apply base_is_valid.
Qed.

(** On histories of valid moves, round by round, [get_ai_move] returns
    provided the opponent history is empty or holds a move other than
    bomb. *)
Lemma get_ai_move_returns (p b : bool) (w : World) :
  Forall is_valid (move_history (agent w)) ->
  Forall is_valid (opponent_history (agent w)) ->
  length (move_history (agent w)) = length (opponent_history (agent w)) ->
  opponent_history (agent w) = [] \/ base_total (opponent_history (agent w)) <> 0 ->
  exists m, fst (get_ai_move p b w) = Return m /\ In m VALID_MOVES.
Proof.
  intros Hm Ho Hlen Hbase.
  assert (Hex : exists m, fst (get_ai_move p b w) = Return m).
  { unfold get_ai_move, bind, get_self, lift, ret.
    destruct (strategy_pattern_returns (agent w) w) as (r & w1 & E1 & _).
    rewrite E1. destruct r as [pm |]; [eexists; reflexivity |].
    destruct (strategy_counter_returns (agent w) Hbase) as (counter & Ec & _).
    rewrite Ec.
    rewrite (strategy_bomb_valid (agent w) b w1 Hm Ho Hlen).
    destruct (_ && _).
    - destruct (Qltb _ _); [eexists; reflexivity |].
      destruct (strategy_difficulty_result (agent w) counter
                  (mkWorld (agent w1) (advance (generator w1)))) as (m' & w' & E & _).
      rewrite E. eexists; reflexivity.
    - destruct (strategy_difficulty_result (agent w) counter w1) as (m' & w' & E & _).
      rewrite E. eexists; reflexivity. }
  destruct Hex as (m & E). exists m. split; [exact E |].
  now apply (get_ai_move_returns_valid p b w).
Qed.

(* ========================================================================= *)
(** * Further properties of the tools *)

Lemma not_valid_eqb (m : string) :
  ~ In m VALID_MOVES ->
  (m =? "rock") = false /\ (m =? "paper") = false
  /\ (m =? "scissors") = false /\ (m =? "bomb") = false.
Proof.
  intros H. repeat split; apply String.eqb_neq; intros ->; apply H; simpl; tauto.
Qed.

(** X1. [resolve_round] is fair on valid moves: it always returns one of
    user, bot and draw; swapping the two moves swaps user and bot and keeps
    a draw. *)
Theorem resolve_round_swap (a b : string) :
  In a VALID_MOVES -> In b VALID_MOVES ->
  (exists r, resolve_round a b = Return r /\ In r ["user"; "bot"; "draw"])
  /\ (resolve_round a b = Return "user" <-> resolve_round b a = Return "bot")
  /\ (resolve_round a b = Return "bot" <-> resolve_round b a = Return "user")
  /\ (resolve_round a b = Return "draw" <-> resolve_round b a = Return "draw").
Proof.
  intros Ha Hb. each_move Ha; each_move Hb;
    (split; [eexists; split; [reflexivity | simpl; tauto] |]);
    (repeat split; intros E; try reflexivity; try discriminate E).
Qed.

Lemma resolve_round_swap_witness :
  resolve_round "rock" "paper" = Return "bot"
  /\ resolve_round "paper" "rock" = Return "user".
Proof.
  assert (Hr : In "rock" VALID_MOVES) by (simpl; tauto).
  assert (Hp : In "paper" VALID_MOVES) by (simpl; tauto).
  destruct (resolve_round_swap "paper" "rock" Hp Hr) as (_ & H & _).
  assert (E : resolve_round "paper" "rock" = Return "user") by reflexivity.
  split; [apply H; exact E | exact E].
Defined.

(** X2. [resolve_round] on moves it does not know. Two equal strings are a
    draw whatever they are. An unknown user move against a different move
    other than bomb raises [KeyError] on that move, and loses to bomb
    without an error. An unknown bot move, against a base move of the user
    or against the user's bomb, is not detected: the round is given to the
    bot, or to the user's bomb. *)
Theorem resolve_round_unknown_moves :
  (forall u, resolve_round u u = Return "draw")
  /\ (forall u b, ~ In u VALID_MOVES -> u <> b -> b <> "bomb" ->
        resolve_round u b = Raise (KeyError u))
  /\ (forall u, ~ In u VALID_MOVES -> resolve_round u "bomb" = Return "bot")
  /\ (forall u b, In u BASE_MOVES -> ~ In b VALID_MOVES ->
        resolve_round u b = Return "bot")
  /\ (forall b, ~ In b VALID_MOVES -> resolve_round "bomb" b = Return "user").
Proof.
  split; [| split; [| split; [| split]]].
  - intros u. unfold resolve_round. now rewrite String.eqb_refl.
  - intros u b Hu Hne Hb. unfold resolve_round, rules.
    destruct (not_valid_eqb u Hu) as (E1 & E2 & E3 & E4).
    apply String.eqb_neq in Hne, Hb.
    rewrite Hne, E4, Hb, E1, E2, E3. reflexivity.
  - intros u Hu. unfold resolve_round.
    destruct (not_valid_eqb u Hu) as (_ & _ & _ & E4).
    rewrite E4. cbn [andb].
    destruct (u =? "bomb") eqn:E; [discriminate | reflexivity].
  - intros u b Hu Hb.
    destruct (not_valid_eqb b Hb) as (_ & _ & _ & E4).
    assert (Hv : forall v, In v VALID_MOVES -> (v =? b) = false).
    { intros v Hv. apply String.eqb_neq. intros ->. contradiction. }
    assert (Hub : (u =? "bomb") = false) by (each_move Hu; reflexivity).
    assert (Hr : exists x, rules u = Return x /\ In x VALID_MOVES)
      by (each_move Hu; eexists; (split; [reflexivity | simpl; tauto])).
    destruct Hr as (x & Hx & Hin).
    unfold resolve_round.
    rewrite (Hv u (base_is_valid u Hu)), Hub, E4, Hx. cbn [andb bind_outcome].
    rewrite (Hv x Hin). reflexivity.
  - intros b Hb. destruct (not_valid_eqb b Hb) as (_ & _ & _ & E4).
    unfold resolve_round. rewrite (String.eqb_sym "bomb" b), E4. reflexivity.
Qed.

Lemma resolve_round_unknown_moves_witness :
  resolve_round "lizard" "rock" = Raise (KeyError "lizard")
  /\ resolve_round "rock" "lizard" = Return "bot".
Proof.
  destruct resolve_round_unknown_moves as (_ & Hk & _ & Hb & _).
  assert (Hl : ~ In "lizard" VALID_MOVES)
    by (simpl; intros [E | [E | [E | [E | []]]]]; discriminate).
  split.
  - apply Hk; [exact Hl | discriminate | discriminate].
  - apply Hb; [simpl; tauto | exact Hl].
Defined.

Lemma score_step (state : GameState) (a b : string) :
  In a VALID_MOVES -> In b VALID_MOVES ->
  exists winner,
    resolve_round a b = Return winner
    /\ round (update_game_state state winner) = round state + 1
    /\ user_bomb_used (update_game_state state winner) = user_bomb_used state
    /\ bot_bomb_used (update_game_state state winner) = bot_bomb_used state
    /\ user_score state <= user_score (update_game_state state winner)
    /\ bot_score state <= bot_score (update_game_state state winner)
    /\ user_score (update_game_state state winner)
       + bot_score (update_game_state state winner)
       = user_score state + bot_score state + (if a =? b then 0 else 1).
Proof.
  intros Ha Hb. each_move Ha; each_move Hb;
    (eexists; split; [reflexivity |]); simpl; repeat split; lia.
Qed.

(** X3. Scoring one round between valid moves: [resolve_round] returns a
    winner, and [update_game_state] with it advances the round counter by
    one, keeps both bomb flags, never lowers a score, and raises the sum of
    the two scores by one exactly when the moves differ. *)
Theorem round_scoring (state : GameState) (a b : string) :
  In a VALID_MOVES -> In b VALID_MOVES ->
  exists winner,
    resolve_round a b = Return winner
    /\ round (update_game_state state winner) = round state + 1
    /\ user_bomb_used (update_game_state state winner) = user_bomb_used state
    /\ bot_bomb_used (update_game_state state winner) = bot_bomb_used state
    /\ user_score state <= user_score (update_game_state state winner)
    /\ bot_score state <= bot_score (update_game_state state winner)
    /\ user_score (update_game_state state winner)
       + bot_score (update_game_state state winner)
       = user_score state + bot_score state + (if a =? b then 0 else 1).
Proof.
  intros Ha Hb. now apply score_step.
Qed.

Lemma round_scoring_witness :
  exists winner,
    resolve_round "bomb" "rock" = Return winner
    /\ user_score (update_game_state GameState_init winner)
       + bot_score (update_game_state GameState_init winner) = 1.
Proof.
  assert (Hb : In "bomb" VALID_MOVES) by (simpl; tauto).
  assert (Hr : In "rock" VALID_MOVES) by (simpl; tauto).
  destruct (round_scoring GameState_init "bomb" "rock" Hb Hr)
    as (winner & E & _ & _ & _ & _ & _ & Hs).
  exists winner. split; [exact E | exact Hs].
Defined.

Lemma valid_move_normal (m : string) : In m VALID_MOVES -> strip (lower m) = m.
Proof.
  intros H. each_move H; reflexivity.
Qed.

(** X4. What [validate_move] accepts and rejects. An accepted input yields
    a move of the four-move set and no reason, never bomb when [bomb_used]
    is set, and validating the accepted move again gives the same answer.
    A rejected input yields no move and one of the two reasons, the one
    about the bomb only when [bomb_used] is set. *)
Theorem validate_move_accepted (raw : string) (bomb_used : bool) :
  (valid (validate_move raw bomb_used) = true ->
   exists m,
     validate_move raw bomb_used = mkValidation true (Some m) None
     /\ In m VALID_MOVES
     /\ (bomb_used = true -> m <> "bomb")
     /\ validate_move m bomb_used = validate_move raw bomb_used)
  /\ (valid (validate_move raw bomb_used) = false ->
      validate_move raw bomb_used = mkValidation false None (Some "Invalid move")
      \/ (bomb_used = true
          /\ validate_move raw bomb_used
             = mkValidation false None (Some "Bomb already used"))).
Proof.
  unfold validate_move at 1 2 3 5 6 7.
  destruct (mem (strip (lower raw)) VALID_MOVES) eqn:Em; cbn [negb].
  - apply mem_spec in Em.
    destruct ((strip (lower raw) =? "bomb") && bomb_used) eqn:Eb.
    + split; [discriminate |]. intros _. right.
      apply andb_prop in Eb as [_ ->]. split; reflexivity.
    + split; [| discriminate]. intros _.
      exists (strip (lower raw)). split; [reflexivity |]. split; [exact Em |].
      split.
      * intros -> E. rewrite E in Eb. discriminate.
      * unfold validate_move. rewrite (valid_move_normal _ Em).
        apply mem_spec in Em. rewrite Em, Eb. reflexivity.
  - split; [discriminate |]. intros _. left. reflexivity.
Qed.

Lemma validate_move_accepted_witness :
  exists m,
    validate_move " Paper " true = mkValidation true (Some m) None
    /\ In m VALID_MOVES
    /\ validate_move m true = validate_move " Paper " true.
Proof.
  destruct (validate_move_accepted " Paper " true) as [H _].
  destruct (H eq_refl) as (m & E & Hin & _ & Hagain).
  exists m. split; [exact E |]. split; [exact Hin | exact Hagain].
Defined.

(** *** The normalisation in [main] and the one in [validate_move] *)

(** A string that does not start with whitespace. *)
Lemma lstrip_head (s : string) :
  lstrip s = "" \/ exists c t, lstrip s = String c t /\ is_space c = false.
Proof.
  induction s as [| c s IH]; simpl; [left; reflexivity |].
  destruct (is_space c) eqn:E; [exact IH |].
  right. exists c, s. split; [reflexivity | exact E].
Qed.

Lemma lstrip_rstrip_head (t : string) :
  (t = "" \/ exists c t', t = String c t' /\ is_space c = false) ->
  lstrip (rstrip t) = rstrip t.
Proof.
  intros [-> | (c & t' & -> & Hc)]; [reflexivity |].
  cbn [rstrip]. destruct (rstrip t'); rewrite ?Hc; cbn [lstrip]; now rewrite Hc.
Qed.

Lemma rstrip_idempotent (s : string) : rstrip (rstrip s) = rstrip s.
Proof.
  induction s as [| c s IH]; simpl; [reflexivity |].
  destruct (rstrip s) as [| d t] eqn:E.
  - destruct (is_space c) eqn:Ec; simpl; [reflexivity | now rewrite Ec].
  - simpl in *. now rewrite IH.
Qed.

Lemma strip_idempotent (s : string) : strip (strip s) = strip s.
Proof.
  unfold strip. rewrite (lstrip_rstrip_head (lstrip s) (lstrip_head s)).
  apply rstrip_idempotent.
Qed.

Lemma lower_lstrip (s : string) : lower (lstrip s) = lstrip (lower s).
Proof.
  induction s as [| c s IH]; simpl; [reflexivity |].
  rewrite lower_char_space. destruct (is_space c); [exact IH | reflexivity].
Qed.

Lemma lower_rstrip (s : string) : lower (rstrip s) = rstrip (lower s).
Proof.
  induction s as [| c s IH]; simpl; [reflexivity |].
  rewrite <- IH, lower_char_space.
  destruct (rstrip s); simpl; [destruct (is_space c) |]; reflexivity.
Qed.

Lemma lower_strip (s : string) : lower (strip s) = strip (lower s).
Proof.
  unfold strip. now rewrite lower_rstrip, lower_lstrip.
Qed.

Lemma normalise_again (line : string) :
  strip (lower (lower (strip line))) = strip (lower line).
Proof.
  now rewrite lower_idempotent, lower_strip, strip_idempotent.
Qed.

Lemma validate_move_normalised (line : string) (bomb_used : bool) :
  validate_move (lower (strip line)) bomb_used = validate_move line bomb_used.
Proof.
  unfold validate_move. now rewrite normalise_again.
Qed.

(** X5. [str.lower] and [str.strip] commute and are idempotent, so the
    normalisation [main] applies to the typed line before calling
    [validate_move] changes nothing: the line and its normalised form are
    validated alike. *)
Theorem main_normalisation_redundant (line : string) (bomb_used : bool) :
  lower (strip line) = strip (lower line)
  /\ strip (lower (lower (strip line))) = strip (lower line)
  /\ validate_move (lower (strip line)) bomb_used = validate_move line bomb_used.
Proof.
  split; [apply lower_strip |]. split; [apply normalise_again |].
  apply validate_move_normalised.
Qed.

(* ------------------------------------------------------------------------- *)
(** * Further properties of the agent's helpers *)

(** X6. The move [get_counter_move] returns for a base move beats it, for
    [resolve_round] and for [_would_win] alike, and differs from it;
    countering three times comes back to the move. Bomb is countered by
    bomb, and any string that is not one of the four moves by rock. *)
Theorem get_counter_move_beats :
  (forall m, In m BASE_MOVES ->
     resolve_round (get_counter_move m) m = Return "user"
     /\ _would_win (get_counter_move m) m = Return true
     /\ get_counter_move m <> m
     /\ get_counter_move (get_counter_move (get_counter_move m)) = m)
  /\ get_counter_move "bomb" = "bomb"
  /\ (forall m, ~ In m VALID_MOVES -> get_counter_move m = "rock").
Proof.
  split; [| split].
  - intros m H. each_move H; repeat split; discriminate.
  - reflexivity.
  - intros m H. destruct (not_valid_eqb m H) as (E1 & E2 & E3 & E4).
    unfold get_counter_move. now rewrite E1, E2, E3, E4.
Qed.

Lemma get_counter_move_beats_witness :
  resolve_round (get_counter_move "scissors") "scissors" = Return "user"
  /\ get_counter_move "lizard" = "rock".
Proof.
  destruct get_counter_move_beats as (Hb & _ & Hu).
  split.
  - apply (Hb "scissors"). simpl; tauto.
  - apply Hu. simpl. intros [E | [E | [E | [E | []]]]]; discriminate.
Defined.

(** X7. The agent's own test of a win agrees with the tool: on valid moves
    [_would_win bot_move player_move] is true exactly when [resolve_round]
    gives the round to the bot, and false on a draw and on a win of the
    user. *)
Theorem would_win_agrees_with_resolve_round (bot_move player_move : string) :
  In bot_move VALID_MOVES -> In player_move VALID_MOVES ->
  (_would_win bot_move player_move = Return true
   <-> resolve_round player_move bot_move = Return "bot")
  /\ (_would_win bot_move player_move = Return false
      <-> resolve_round player_move bot_move = Return "user"
          \/ resolve_round player_move bot_move = Return "draw").
Proof.
  intros Hb Hp. each_move Hb; each_move Hp;
    (repeat split; intros E; try reflexivity; try discriminate E;
     try (left; reflexivity); try (right; reflexivity);
     try (destruct E as [E | E]; discriminate E)).
Qed.

Lemma would_win_agrees_with_resolve_round_witness :
  _would_win "rock" "scissors" = Return true
  /\ resolve_round "scissors" "rock" = Return "bot".
Proof.
  assert (Hr : In "rock" VALID_MOVES) by (simpl; tauto).
  assert (Hs : In "scissors" VALID_MOVES) by (simpl; tauto).
  destruct (would_win_agrees_with_resolve_round "rock" "scissors" Hr Hs) as [H _].
  assert (E : _would_win "rock" "scissors" = Return true) by reflexivity.
  split; [exact E | apply H; exact E].
Defined.

(** X8. When [_would_win] raises. With a valid move of the bot it returns a
    truth value whatever string the player's move is. With an unknown move
    of the bot it raises [KeyError] on that move, unless the player's move
    is the same string or bomb, in which cases it returns false. *)
Theorem would_win_errors :
  (forall bot_move player_move,
      In bot_move VALID_MOVES -> exists r, _would_win bot_move player_move = Return r)
  /\ (forall bot_move player_move,
      ~ In bot_move VALID_MOVES -> bot_move <> player_move -> player_move <> "bomb" ->
      _would_win bot_move player_move = Raise (KeyError bot_move))
  /\ (forall bot_move,
      ~ In bot_move VALID_MOVES ->
      _would_win bot_move bot_move = Return false
      /\ _would_win bot_move "bomb" = Return false).
Proof.
  split; [| split].
  - intros bm pm Hb. unfold _would_win.
    destruct (bm =? pm); [eexists; reflexivity |].
    destruct (bm =? "bomb") eqn:Eb; [eexists; reflexivity |].
    destruct (pm =? "bomb"); [eexists; reflexivity |].
    assert (Hr : exists x, rules bm = Return x)
      by (each_move Hb; try discriminate Eb; eexists; reflexivity).
    destruct Hr as (x & ->). eexists; reflexivity.
  - intros bm pm Hb Hne Hp. destruct (not_valid_eqb bm Hb) as (E1 & E2 & E3 & E4).
    apply String.eqb_neq in Hne, Hp.
    unfold _would_win, rules. now rewrite Hne, E4, Hp, E1, E2, E3.
  - intros bm Hb. destruct (not_valid_eqb bm Hb) as (_ & _ & _ & E4).
    unfold _would_win. rewrite String.eqb_refl, E4. split; [reflexivity |].
    destruct (bm =? "bomb"); [discriminate | reflexivity].
Qed.

Lemma would_win_errors_witness :
  _would_win "lizard" "rock" = Raise (KeyError "lizard")
  /\ exists r, _would_win "paper" "lizard" = Return r.
Proof.
  destruct would_win_errors as (Hv & Hk & _).
  split.
  - apply Hk; [| discriminate | discriminate].
    simpl. intros [E | [E | [E | [E | []]]]]; discriminate.
  - apply Hv. simpl; tauto.
Defined.

Lemma fold_left_raise {A B} (f : A -> B -> outcome A) (l : list B) (e : exn) :
  fold_left (fun acc x => bind_outcome acc (fun a => f a x)) l (Raise e) = Raise e.
Proof.
  induction l as [| x l IH]; [reflexivity | exact IH].
Qed.

Lemma count_fold_short (opp : list string) (own : list string) :
  forall (k n : nat) (rest : list string),
    Forall is_valid own ->
    Forall is_valid rest ->
    skipn k opp = rest ->
    length rest < length own ->
    fold_left
      (fun acc im =>
         bind_outcome acc (fun n =>
         bind_outcome (get_item opp (fst im)) (fun player_move =>
         bind_outcome (_would_win (snd im) player_move) (fun won =>
         Return (if won then n + 1 else n)))))
      (combine (seq k (length own)) own) (Return n)
    = Raise IndexError.
Proof.
  induction own as [| m own IH]; intros k n rest Hown Hrest Hskip Hlen.
  - simpl in Hlen. lia.
  - inversion Hown as [| ? ? Hm Hown']; subst.
    cbn [length seq combine fold_left fst snd bind_outcome].
    destruct (skipn k opp) as [| o rest] eqn:Hsk.
    + assert (Hk : nth_error opp k = None).
      { apply nth_error_None.
        assert (length (skipn k opp) = 0) by (rewrite Hsk; reflexivity).
        rewrite length_skipn in H. lia. }
      unfold get_item at 2. rewrite Hk. cbn [bind_outcome].
      apply (fold_left_raise
               (fun n im =>
                  bind_outcome (get_item opp (fst im)) (fun player_move =>
                  bind_outcome (_would_win (snd im) player_move) (fun won =>
                  Return (if won then n + 1 else n))))).
    + inversion Hrest as [| ? ? Ho Hrest']; subst.
      assert (Hk : nth_error opp k = Some o).
      { rewrite <- (firstn_skipn k opp) at 1.
        assert (Hl : length (firstn k opp) = k).
        { apply firstn_length_le.
          assert (length (skipn k opp) = S (length rest)) by (rewrite Hsk; reflexivity).
          rewrite length_skipn in H. lia. }
        rewrite nth_error_app2 by lia.
        rewrite Hl, Nat.sub_diag, Hsk. reflexivity. }
      unfold get_item at 2. rewrite Hk. cbn [bind_outcome].
      rewrite (_would_win_valid m o Hm Ho). cbn [bind_outcome].
      apply (IH (S k) _ rest Hown' Hrest').
      * rewrite <- tl_skipn, Hsk. reflexivity.
      * simpl in Hlen. lia.
Qed.

Lemma wins_le (own opp : list string) : wins own opp <= length own.
Proof.
  revert opp. induction own as [| m own IH]; intros [| o opp]; simpl; try lia.
  specialize (IH opp). destruct (engine_won m o); lia.
Qed.

(** X9. Counting the bot's wins over histories of valid moves. When the
    bot's history is no longer than the opponent's the count is returned: it
    is the number of rounds whose bot move wins, at most the number of the
    bot's moves. When the bot's history is the longer one, the missing
    opponent move raises [IndexError]. *)
Theorem count_bot_wins_alignment (a : AIAgent) :
  Forall is_valid (move_history a) ->
  Forall is_valid (opponent_history a) ->
  (length (move_history a) <= length (opponent_history a) ->
   count_bot_wins a = Return (wins (move_history a) (opponent_history a))
   /\ wins (move_history a) (opponent_history a) <= length (move_history a))
  /\ (length (opponent_history a) < length (move_history a) ->
      count_bot_wins a = Raise IndexError).
Proof.
  intros Hm Ho. split.
  - intros Hlen. split; [| apply wins_le].
    unfold count_bot_wins, enumerate.
    rewrite (count_fold (opponent_history a) (move_history a) 0 0 (opponent_history a));
      try assumption; reflexivity.
  - intros Hlen. unfold count_bot_wins, enumerate.
    apply (count_fold_short (opponent_history a) (move_history a) 0 0
                            (opponent_history a)); try assumption; reflexivity.
Qed.

Ltac valid_list :=
  cbn [move_history opponent_history];
  repeat (apply Forall_cons; [unfold is_valid; simpl; tauto |]);
  apply Forall_nil.

Lemma count_bot_wins_alignment_witness :
  count_bot_wins (mkAIAgent "hard" ["bomb"; "rock"] ["rock"; "paper"] [] [] 3)
  = Return 1
  /\ count_bot_wins (mkAIAgent "hard" ["bomb"; "rock"] ["rock"] [] [] 3)
     = Raise IndexError.
Proof.
  split.
  - refine (proj1 (proj1 (count_bot_wins_alignment
                            (mkAIAgent "hard" ["bomb"; "rock"] ["rock"; "paper"] [] [] 3)
                            _ _) _)).
    + valid_list.
    + valid_list.
    + simpl. lia.
  - refine (proj2 (count_bot_wins_alignment
                     (mkAIAgent "hard" ["bomb"; "rock"] ["rock"] [] [] 3) _ _) _).
    + valid_list.
    + valid_list.
    + simpl. lia.
Defined.

(* ------------------------------------------------------------------------- *)
(** * Further properties of the agent *)

Lemma reset_world (w : World) :
  reset w =
  (Return tt,
   mkWorld (mkAIAgent (difficulty (agent w)) [] [] [] [] (pattern_length (agent w)))
           (generator w)).
Proof.
  reflexivity.
Qed.

Lemma record_rounds_move_patterns w rounds :
  move_patterns (agent (record_rounds w rounds)) = move_patterns (agent w).
Proof.
  induction rounds as [| r rounds IH] using rev_ind; [reflexivity |].
  rewrite record_rounds_app, update_history_world. exact IH.
Qed.

(** X10. [reset] starts the agent over. Whatever rounds an agent created
    with difficulty [d] has recorded, after [reset] it is the agent
    [AIAgent(d)] creates, and the generator is untouched, so the next call
    of [get_ai_move] is the call a fresh agent would make. On any agent
    [reset] keeps the difficulty and the pattern length, and resetting twice
    is resetting once. *)
Theorem reset_restores_fresh_agent :
  (forall d g rounds,
      let w := record_rounds (mkWorld (AIAgent_init d) g) rounds in
      reset w = (Return tt, mkWorld (AIAgent_init d) g)
      /\ forall p b, get_ai_move p b (snd (reset w))
                     = get_ai_move p b (mkWorld (AIAgent_init d) g))
  /\ (forall w,
      difficulty (agent (snd (reset w))) = difficulty (agent w)
      /\ pattern_length (agent (snd (reset w))) = pattern_length (agent w)
      /\ move_history (agent (snd (reset w))) = []
      /\ opponent_history (agent (snd (reset w))) = []
      /\ last_moves (agent (snd (reset w))) = []
      /\ reset (snd (reset w)) = reset w).
Proof.
  split.
  - intros d g rounds w.
    assert (E : reset w = (Return tt, mkWorld (AIAgent_init d) g)).
    { rewrite reset_world. unfold w.
      destruct (record_rounds_static (mkWorld (AIAgent_init d) g) rounds) as [Hd Hp].
      rewrite Hd, Hp, record_rounds_generator. reflexivity. }
    split; [exact E |]. intros p b. rewrite E. reflexivity.
  - intros w. rewrite !reset_world. repeat split.
Qed.

(** *** The frequencies *)

Lemma frequency_bounds (r : nat) (t : positive) :
  (Z.of_nat r <= Z.pos t)%Z -> (0 <= Z.of_nat r # t)%Q /\ (Z.of_nat r # t <= 1)%Q.
Proof.
  intros H. unfold Qle. cbn [Qnum Qden]. lia.
Qed.

Lemma frequency_zero (r : nat) (t : positive) : (Z.of_nat r # t == 0)%Q <-> r = 0.
Proof.
  unfold Qeq. cbn [Qnum Qden]. lia.
Qed.

Lemma base_total_pos (l : list string) :
  base_total l <> 0 ->
  (Z.of_nat (occurrences "rock" l) + Z.of_nat (occurrences "paper" l)
   + Z.of_nat (occurrences "scissors" l)
   = Z.pos (Pos.of_nat (base_total l)))%Z.
Proof.
  intros H. unfold base_total in *.
  rewrite <- !Nat2Z.inj_add.
  destruct (occurrences "rock" l + occurrences "paper" l + occurrences "scissors" l)
    as [| n] eqn:E; [contradiction |].
  rewrite <- Pos.of_nat_succ, Zpos_P_of_succ_nat. lia.
Qed.

(** X11. When [analyze_patterns] returns and what. On the empty history it
    returns the same prior, the float 0.33, for rock, paper and scissors. On
    a history that is not empty and holds no rock, paper or scissors it
    raises [ZeroDivisionError]. On a history with at least one of them it
    returns a frequency for rock, paper and scissors, in this order, each
    between 0 and 1 and zero exactly when its move does not occur; bombs are
    not counted. *)
Theorem analyze_patterns_frequencies (a : AIAgent) :
  (opponent_history a = [] ->
   analyze_patterns a
   = Return [("rock", float_0_33); ("paper", float_0_33); ("scissors", float_0_33)])
  /\ (opponent_history a <> [] -> base_total (opponent_history a) = 0 ->
      analyze_patterns a = Raise ZeroDivisionError)
  /\ (base_total (opponent_history a) <> 0 ->
      exists fr fp fs,
        analyze_patterns a = Return [("rock", fr); ("paper", fp); ("scissors", fs)]
        /\ (0 <= fr /\ fr <= 1)%Q /\ (0 <= fp /\ fp <= 1)%Q /\ (0 <= fs /\ fs <= 1)%Q
        /\ ((fr == 0)%Q <-> occurrences "rock" (opponent_history a) = 0)
        /\ ((fp == 0)%Q <-> occurrences "paper" (opponent_history a) = 0)
        /\ ((fs == 0)%Q <-> occurrences "scissors" (opponent_history a) = 0)).
Proof.
  split; [| split].
  - intros E. unfold analyze_patterns. rewrite E. reflexivity.
  - intros Hne Hb. rewrite (analyze_patterns_nonempty a Hne), Hb. reflexivity.
  - intros Hb.
    assert (Hne : opponent_history a <> []).
    { intros E. rewrite E in Hb. apply Hb. reflexivity. }
    rewrite (analyze_patterns_nonempty a Hne).
    pose proof (base_total_pos (opponent_history a) Hb) as Hsum.
    apply Nat.eqb_neq in Hb. rewrite Hb.
    do 3 eexists. split; [reflexivity |].
    split; [apply frequency_bounds; lia |].
    split; [apply frequency_bounds; lia |].
    split; [apply frequency_bounds; lia |].
    split; [apply frequency_zero |]. split; apply frequency_zero.
Qed.

Lemma analyze_patterns_frequencies_witness :
  analyze_patterns (mkAIAgent "hard" [] ["bomb"; "bomb"] [] [] 3)
  = Raise ZeroDivisionError
  /\ exists fr fp fs,
       analyze_patterns (mkAIAgent "hard" [] ["rock"; "bomb"; "paper"; "rock"] [] [] 3)
       = Return [("rock", fr); ("paper", fp); ("scissors", fs)]
       /\ (fs == 0)%Q.
Proof.
  split.
  - apply (analyze_patterns_frequencies (mkAIAgent "hard" [] ["bomb"; "bomb"] [] [] 3)).
    + discriminate.
    + reflexivity.
  - destruct (analyze_patterns_frequencies
                (mkAIAgent "hard" [] ["rock"; "bomb"; "paper"; "rock"] [] [] 3))
      as (_ & _ & H).
    destruct H as (fr & fp & fs & E & _ & _ & _ & _ & _ & Hs).
    + vm_compute. discriminate.
    + exists fr, fp, fs. split; [exact E |]. apply Hs. reflexivity.
Defined.

(** *** The most used move *)

Lemma Qltb_same_den (a b : nat) (t : positive) :
  Qltb (Z.of_nat a # t) (Z.of_nat b # t) = (a <? b)%nat.
Proof.
  unfold Qltb. cbn [Qnum Qden].
  destruct (Nat.ltb_spec a b) as [H | H].
  - apply Z.ltb_lt. nia.
  - apply Z.ltb_ge. nia.
Qed.

(** X12. The move Strategy 2 counters. On an opponent history with at least
    one rock, paper or scissors, [counter] is the counter of a base move
    that occurs at least as often as every base move and strictly more often
    than every base move listed before it in rock, paper, scissors: ties go
    to the move listed first. On the empty history [counter] is paper, the
    counter of rock. *)
Theorem strategy_counter_most_used :
  (forall a,
      base_total (opponent_history a) <> 0 ->
      exists k,
        strategy_counter a = Return (get_counter_move k)
        /\ In k BASE_MOVES
        /\ (forall x, In x BASE_MOVES ->
              occurrences x (opponent_history a) <= occurrences k (opponent_history a))
        /\ (forall i j x,
              nth_error BASE_MOVES i = Some x -> nth_error BASE_MOVES j = Some k ->
              i < j ->
              occurrences x (opponent_history a) < occurrences k (opponent_history a)))
  /\ (forall a, opponent_history a = [] -> strategy_counter a = Return "paper").
Proof.
  split.
  - intros a Hb.
    assert (Hne : opponent_history a <> []).
    { intros E. rewrite E in Hb. apply Hb. reflexivity. }
    unfold strategy_counter. rewrite (analyze_patterns_nonempty a Hne).
    apply Nat.eqb_neq in Hb. rewrite Hb.
    cbn [bind_outcome max_by_value fold_left fst snd].
    rewrite Qltb_same_den.
    set (r := occurrences "rock" (opponent_history a)).
    set (p := occurrences "paper" (opponent_history a)).
    set (s := occurrences "scissors" (opponent_history a)).
    destruct (Nat.ltb_spec r p) as [Hrp | Hrp]; cbn [snd];
      rewrite Qltb_same_den;
      [destruct (Nat.ltb_spec p s) as [Hs | Hs]
      | destruct (Nat.ltb_spec r s) as [Hs | Hs]];
      cbn [fst];
      (eexists; split; [reflexivity |]; split; [simpl; tauto |]; split;
       [ intros x Hx; each_move Hx; fold r p s; lia
       | intros i j x Hi Hj Hij; unfold BASE_MOVES in Hi, Hj;
         destruct j as [| [| [| j]]]; simpl in Hj;
         try discriminate Hj; try (destruct j; discriminate Hj);
         destruct i as [| [| [| i]]]; simpl in Hi; try lia;
         try discriminate Hi; try (destruct i; discriminate Hi);
         injection Hi as <-; fold r p s; lia ]).
  - intros a E. unfold strategy_counter, analyze_patterns. rewrite E. reflexivity.
Qed.

Lemma strategy_counter_most_used_witness :
  exists k,
    strategy_counter (mkAIAgent "hard" [] ["paper"; "bomb"; "scissors"; "paper"] [] [] 3)
    = Return (get_counter_move k)
    /\ In k BASE_MOVES.
Proof.
  destruct strategy_counter_most_used as [H _].
  destruct (H (mkAIAgent "hard" [] ["paper"; "bomb"; "scissors"; "paper"] [] [] 3))
    as (k & E & Hk & _).
  - vm_compute. discriminate.
  - exists k. split; [exact E | exact Hk].
Defined.

(** *** Short histories *)

Lemma occurrences_elsewhere_le (pattern history : list string) :
  occurrences_elsewhere pattern history <= length history - 3.
Proof.
  unfold occurrences_elsewhere.
  etransitivity; [apply filter_length_le |]. now rewrite length_seq.
Qed.

Lemma detect_repeating_pattern_short (a : AIAgent) :
  pattern_length a = 3 ->
  length (last_moves a) < 3 \/ length (opponent_history a) < 5 ->
  detect_repeating_pattern a = None.
Proof.
  intros H3 H. rewrite (detect_repeating_pattern_three a H3).
  destruct H as [H | H].
  - apply Nat.leb_gt in H. now rewrite H.
  - pose proof (occurrences_elsewhere_le (suffix 3 (last_moves a)) (opponent_history a)).
    assert (E : (2 <=? occurrences_elsewhere (suffix 3 (last_moves a))
                                            (opponent_history a))%nat = false)
      by (apply Nat.leb_gt; lia).
    rewrite E, andb_false_r. reflexivity.
Qed.

Lemma strategy_pattern_short (a : AIAgent) (w : World) :
  detect_repeating_pattern a = None -> strategy_pattern a w = (Return None, w).
Proof.
  intros E. unfold strategy_pattern. rewrite E. reflexivity.
Qed.

(** X13. The pattern step needs history. With a pattern length of three, as
    long as the recency window holds fewer than three entries or the
    opponent history fewer than five, [detect_repeating_pattern] returns
    [None], and Strategy 1 neither returns a move nor consumes a draw. *)
Theorem pattern_step_needs_five_rounds (a : AIAgent) (w : World) :
  pattern_length a = 3 ->
  length (last_moves a) < 3 \/ length (opponent_history a) < 5 ->
  detect_repeating_pattern a = None
  /\ strategy_pattern a w = (Return None, w).
Proof.
  intros H3 H.
  pose proof (detect_repeating_pattern_short a H3 H) as E.
  split; [exact E | now apply strategy_pattern_short].
Qed.

Lemma pattern_step_needs_five_rounds_witness :
  detect_repeating_pattern
    (mkAIAgent "hard" ["rock"; "rock"; "rock"; "rock"]
               ["rock"; "rock"; "rock"; "rock"] []
               ["rock"; "rock"; "rock"; "rock"] 3)
  = None.
Proof.
  refine (proj1 (pattern_step_needs_five_rounds
                   (mkAIAgent "hard" ["rock"; "rock"; "rock"; "rock"]
                              ["rock"; "rock"; "rock"; "rock"] []
                              ["rock"; "rock"; "rock"; "rock"] 3)
                   (mkWorld (AIAgent_init "hard") zero_generator) _ _)).
  - reflexivity.
  - right. simpl. lia.
Defined.

(** X14. When [get_ai_move] cannot return bomb. With a pattern length of
    three and fewer than five opponent moves recorded, if the bot's bomb is
    already used, or fewer than two rounds are recorded, every move
    [get_ai_move] returns is rock, paper or scissors. *)
Theorem get_ai_move_no_bomb (p b : bool) (w : World) (m : string) :
  pattern_length (agent w) = 3 ->
  length (opponent_history (agent w)) < 5 ->
  b = true \/ length (opponent_history (agent w)) < 2 ->
  fst (get_ai_move p b w) = Return m ->
  In m BASE_MOVES.
Proof.
  intros H3 H5 Hb.
  unfold get_ai_move, bind, get_self, lift, ret.
  rewrite (strategy_pattern_short (agent w) w
             (detect_repeating_pattern_short (agent w) H3 (or_intror H5))).
  destruct (strategy_counter (agent w)) as [c | e] eqn:Ec; [| discriminate].
  apply strategy_counter_base in Ec.
  assert (Eb : strategy_bomb (agent w) b w = (Return false, w)).
  { destruct Hb as [-> | Hlt]; [reflexivity | now apply strategy_bomb_short]. }
  rewrite Eb.
  destruct (strategy_difficulty_result (agent w) c w) as (m' & w' & E & _ & Hm).
  rewrite E. cbn [fst]. intros E'. injection E' as <-.
  destruct Hm as [-> | [-> | [-> | Hm]]]; auto using get_counter_move_base.
Qed.

Lemma get_ai_move_no_bomb_witness :
  fst (get_ai_move true false fresh_hard_world) = Return "paper"
  /\ In "paper" BASE_MOVES.
Proof.
  assert (E : fst (get_ai_move true false fresh_hard_world) = Return "paper")
    by reflexivity.
  split; [exact E |].
  apply (get_ai_move_no_bomb true false fresh_hard_world "paper").
  - reflexivity.
  - simpl. lia.
  - right. simpl. lia.
  - exact E.
Defined.

(* ------------------------------------------------------------------------- *)
(** * Further properties of the round loop *)

Lemma valid_not_bomb_base (m : string) :
  In m VALID_MOVES -> (m =? "bomb") = false -> In m BASE_MOVES.
Proof.
  intros H E. each_move H; try discriminate E; simpl; tauto.
Qed.

Lemma base_not_bomb (m : string) : In m BASE_MOVES -> (m =? "bomb") = false.
Proof.
  intros H. each_move H; reflexivity.
Qed.

Lemma main_bot_move_inv (state : GameState) (w w' : World) (played : string * GameState) :
  main_bot_move state w = (Return played, w') ->
  In (fst played) VALID_MOVES
  /\ agent w' = agent w
  /\ round (snd played) = round state
  /\ user_score (snd played) = user_score state
  /\ bot_score (snd played) = bot_score state
  /\ user_bomb_used (snd played) = user_bomb_used state
  /\ bot_bomb_used (snd played) = bot_bomb_used state || (fst played =? "bomb")
  /\ (bot_bomb_used state = true -> In (fst played) BASE_MOVES).
Proof.
  unfold main_bot_move, bind.
  pose proof (get_ai_move_agent (user_bomb_used state) (bot_bomb_used state) w) as Ha.
  pose proof (get_ai_move_returns_valid (user_bomb_used state) (bot_bomb_used state) w)
    as Hv.
  destruct (get_ai_move (user_bomb_used state) (bot_bomb_used state) w)
    as [[m | e] w1]; [| discriminate].
  cbn [fst snd] in Ha, Hv. specialize (Hv m eq_refl).
  destruct (m =? "bomb") eqn:Em; destruct (bot_bomb_used state) eqn:Eb; cbn [andb].
  - destruct (random_choice_base w1) as (m' & Hin & Ec). rewrite Ec.
    unfold ret. intros E. injection E as <- <-. cbn [fst snd agent].
    rewrite Eb, (base_not_bomb m' Hin).
    repeat split; auto using base_is_valid.
  - unfold ret. intros E. injection E as <- <-. cbn [fst snd].
    rewrite Em. repeat split; auto. discriminate.
  - unfold ret. intros E. injection E as <- <-. cbn [fst snd].
    rewrite Em, Eb. repeat split; auto. intros _. now apply valid_not_bomb_base.
  - unfold ret. intros E. injection E as <- <-. cbn [fst snd].
    rewrite Em, Eb. repeat split; auto. discriminate.
Qed.

(** X15. The bot never plays a second bomb. Whenever the bot's move of a
    round is returned, it is one of the four moves; if the bot's bomb flag
    was set it is rock, paper or scissors; the flag afterwards is set
    exactly when it was set before or the move is bomb; the rest of the game
    state and the agent are unchanged. *)
Theorem bot_plays_bomb_once (state : GameState) (w w' : World)
  (played : string * GameState) :
  main_bot_move state w = (Return played, w') ->
  In (fst played) VALID_MOVES
  /\ (bot_bomb_used state = true -> In (fst played) BASE_MOVES)
  /\ bot_bomb_used (snd played) = bot_bomb_used state || (fst played =? "bomb")
  /\ round (snd played) = round state
  /\ user_score (snd played) = user_score state
  /\ bot_score (snd played) = bot_score state
  /\ user_bomb_used (snd played) = user_bomb_used state
  /\ agent w' = agent w.
Proof.
  intros E.
  destruct (main_bot_move_inv state w w' played E)
    as (H1 & H2 & H3 & H4 & H5 & H6 & H7 & H8).
  repeat split; assumption.
Qed.

Lemma bot_plays_bomb_once_witness :
  exists m,
    main_bot_move (mkGameState 3 1 1 true true)
                  (mkWorld spent_bomb_agent zero_generator)
    = (Return (m, mkGameState 3 1 1 true true),
       mkWorld spent_bomb_agent (advance (advance zero_generator)))
    /\ In m BASE_MOVES.
Proof.
  assert (E : main_bot_move (mkGameState 3 1 1 true true)
                            (mkWorld spent_bomb_agent zero_generator)
              = (Return ("rock", mkGameState 3 1 1 true true),
                 mkWorld spent_bomb_agent (advance (advance zero_generator))))
    by (vm_compute; reflexivity).
  exists "rock". split; [exact E |].
  exact (proj1 (proj2 (bot_plays_bomb_once _ _ _ _ E)) eq_refl).
Defined.

Lemma validate_move_accepts_inv (raw : string) (bomb_used : bool) (m : string) :
  validate_move raw bomb_used = mkValidation true (Some m) None ->
  In m VALID_MOVES /\ (m = "bomb" -> bomb_used = false).
Proof.
  unfold validate_move.
  destruct (mem (strip (lower raw)) VALID_MOVES) eqn:Em; cbn [negb]; [| discriminate].
  destruct ((strip (lower raw) =? "bomb") && bomb_used) eqn:Eb; [discriminate |].
  intros E. injection E as <-. split; [now apply mem_spec |].
  intros E. rewrite E in Eb. cbn in Eb. exact Eb.
Qed.

Lemma validate_move_valid_form (raw : string) (bomb_used : bool) :
  valid (validate_move raw bomb_used) = true ->
  exists m, validate_move raw bomb_used = mkValidation true (Some m) None.
Proof.
  unfold validate_move.
  destruct (negb (mem (strip (lower raw)) VALID_MOVES)); [discriminate |].
  destruct ((strip (lower raw) =? "bomb") && bomb_used); [discriminate |].
  intros _. eexists. reflexivity.
Qed.

Lemma main_round_invalid (line : string) (state : GameState) (w : World) :
  valid (validate_move line (user_bomb_used state)) = false ->
  main_round line state w
  = (Return (mkGameState (round state + 1) (user_score state) (bot_score state)
                         (user_bomb_used state) (bot_bomb_used state)), w).
Proof.
  intros H. unfold main_round. cbv zeta.
  rewrite validate_move_normalised, H. reflexivity.
Qed.

(** X16. An invalid line wastes the round and nothing else. When the typed
    line, of ASCII characters, is rejected, because its normal form is not
    one of the four moves
    or because it is bomb and the player's bomb is already used, the round
    loop advances the round counter by one and leaves the scores, both bomb
    flags, the agent and the generator as they were: the bot does not move
    and nothing is recorded. *)
Theorem invalid_line_wastes_round (line : string) (state : GameState) (w : World) :
  is_ascii line = true ->
  ~ In (strip (lower line)) VALID_MOVES
  \/ (strip (lower line) = "bomb" /\ user_bomb_used state = true) ->
  valid (validate_move line (user_bomb_used state)) = false
  /\ main_round line state w
     = (Return (mkGameState (round state + 1) (user_score state) (bot_score state)
                            (user_bomb_used state) (bot_bomb_used state)), w).
Proof.
  intros _ H.
  assert (E : valid (validate_move line (user_bomb_used state)) = false).
  { unfold validate_move. destruct H as [H | [H1 H2]].
    - destruct (mem (strip (lower line)) VALID_MOVES) eqn:Em; [| reflexivity].
      apply mem_spec in Em. contradiction.
    - rewrite H1, H2. reflexivity. }
  split; [exact E | now apply main_round_invalid].
Qed.

Lemma invalid_line_wastes_round_witness :
  main_round "BOMB " (mkGameState 2 1 0 true false) fresh_hard_world
  = (Return (mkGameState 3 1 0 true false), fresh_hard_world).
Proof.
  refine (proj2 (invalid_line_wastes_round "BOMB " (mkGameState 2 1 0 true false)
                                           fresh_hard_world eq_refl _)).
  right. split; reflexivity.
Defined.

Lemma main_round_inv (line : string) (state st' : GameState) (w w' : World)
  (user_move : string) :
  validate_move line (user_bomb_used state) = mkValidation true (Some user_move) None ->
  main_round line state w = (Return st', w') ->
  exists bot_move,
    In user_move VALID_MOVES
    /\ In bot_move VALID_MOVES
    /\ (user_move = "bomb" -> user_bomb_used state = false)
    /\ (bot_move = "bomb" -> bot_bomb_used state = false)
    /\ opponent_history (agent w') = (opponent_history (agent w) ++ [user_move])%list
    /\ move_history (agent w') = (move_history (agent w) ++ [bot_move])%list
    /\ difficulty (agent w') = difficulty (agent w)
    /\ pattern_length (agent w') = pattern_length (agent w)
    /\ round st' = round state + 1
    /\ user_bomb_used st' = user_bomb_used state || (user_move =? "bomb")
    /\ bot_bomb_used st' = bot_bomb_used state || (bot_move =? "bomb")
    /\ user_score state <= user_score st'
    /\ bot_score state <= bot_score st'
    /\ user_score st' + bot_score st'
       = user_score state + bot_score state + (if user_move =? bot_move then 0 else 1).
Proof.
  intros Hval.
  destruct (validate_move_accepts_inv line _ user_move Hval) as [Hum Hub].
  rewrite <- validate_move_normalised in Hval.
  rewrite (main_round_valid line state user_move Hval).
  set (state1 := if user_move =? "bomb" then _ else state).
  assert (H1 : round state1 = round state /\ user_score state1 = user_score state
               /\ bot_score state1 = bot_score state
               /\ bot_bomb_used state1 = bot_bomb_used state
               /\ user_bomb_used state1 = user_bomb_used state || (user_move =? "bomb")).
  { unfold state1. destruct (user_move =? "bomb"); cbn;
      rewrite ?orb_true_r, ?orb_false_r; repeat split. }
  destruct H1 as (R1 & U1 & B1 & F1 & G1).
  unfold bind at 1.
  destruct (main_bot_move state1 w) as [[played | e] w1] eqn:Eb; [| discriminate].
  destruct (main_bot_move_inv state1 w w1 played Eb)
    as (Hbm & Ha & R2 & U2 & B2 & G2 & F2 & Hbase).
  destruct (score_step (snd played) user_move (fst played) Hum Hbm)
    as (winner & Hres & R3 & G3 & F3 & U3 & B3 & S3).
  unfold bind, lift, ret. rewrite Hres, update_history_world.
  intros E. injection E as <- <-. cbn [agent opponent_history move_history
                                       difficulty pattern_length].
  exists (fst played). rewrite Ha.
  repeat split; try assumption; try congruence; try lia.
  intros Hb. rewrite Hb in F2. cbn in F2.
  destruct (bot_bomb_used state1) eqn:Es; [| congruence].
  specialize (Hbase eq_refl). rewrite Hb in Hbase. each_move Hbase; discriminate.
Qed.

(** X17. A round played on a valid line. When the typed line is accepted as
    the move [user_move] and the round returns, the bot has played one of
    the four moves [bot_move]; the agent has recorded exactly this round,
    the player's move at the end of the opponent history and the bot's at
    the end of its own; the round counter has advanced by one; no score has
    gone down and their sum has grown by one exactly when the two moves
    differ; each bomb flag is set when it was set or its player has just
    played bomb, and a player whose flag was set has not played bomb. *)
Theorem valid_line_plays_round (line : string) (state st' : GameState) (w w' : World)
  (user_move : string) :
  validate_move line (user_bomb_used state) = mkValidation true (Some user_move) None ->
  main_round line state w = (Return st', w') ->
  exists bot_move,
    In user_move VALID_MOVES
    /\ In bot_move VALID_MOVES
    /\ (user_move = "bomb" -> user_bomb_used state = false)
    /\ (bot_move = "bomb" -> bot_bomb_used state = false)
    /\ opponent_history (agent w') = (opponent_history (agent w) ++ [user_move])%list
    /\ move_history (agent w') = (move_history (agent w) ++ [bot_move])%list
    /\ round st' = round state + 1
    /\ user_bomb_used st' = user_bomb_used state || (user_move =? "bomb")
    /\ bot_bomb_used st' = bot_bomb_used state || (bot_move =? "bomb")
    /\ user_score state <= user_score st'
    /\ bot_score state <= bot_score st'
    /\ user_score st' + bot_score st'
       = user_score state + bot_score state + (if user_move =? bot_move then 0 else 1).
Proof.
  intros Hval E.
  destruct (main_round_inv line state st' w w' user_move Hval E)
    as (bm & H1 & H2 & H3 & H4 & H5 & H6 & _ & _ & H7 & H8 & H9 & H10 & H11 & H12).
  exists bm. repeat split; assumption.
Qed.

Lemma valid_line_plays_round_witness :
  exists bot_move,
    In bot_move VALID_MOVES
    /\ move_history (agent (snd (main_round " Rock" GameState_init fresh_hard_world)))
       = [bot_move].
Proof.
  destruct (main_round " Rock" GameState_init fresh_hard_world) as [o w'] eqn:E.
  assert (Ho : o = Return (mkGameState 2 0 1 false false))
    by (apply (f_equal fst) in E; vm_compute in E; now symmetry).
  subst o.
  destruct (valid_line_plays_round " Rock" GameState_init _ fresh_hard_world w' "rock"
                                   eq_refl E)
    as (bm & _ & Hbm & _ & _ & _ & Hm & _).
  exists bm. split; [exact Hbm | exact Hm].
Defined.

(** *** A whole game *)

Lemma occurrences_app_one (x y : string) (l : list string) :
  occurrences x (l ++ [y])%list = occurrences x l + (if x =? y then 1 else 0).
Proof.
  unfold occurrences. rewrite filter_app, length_app. cbn [filter].
  destruct (x =? y); reflexivity.
Qed.

Lemma strategy_counter_raises (a : AIAgent) (e : exn) :
  strategy_counter a = Raise e -> e = ZeroDivisionError.
Proof.
  unfold strategy_counter.
  destruct (opponent_history a) as [| x l] eqn:El.
  - unfold analyze_patterns. rewrite El. discriminate.
  - assert (Hne : opponent_history a <> []) by (rewrite El; discriminate).
    rewrite (analyze_patterns_nonempty a Hne).
    destruct (_ =? 0)%nat; cbn [bind_outcome]; [| discriminate].
    intros E. now injection E as <-.
Qed.

Lemma get_ai_move_raises_only (p b : bool) (w : World) (e : exn) :
  Forall is_valid (move_history (agent w)) ->
  Forall is_valid (opponent_history (agent w)) ->
  length (move_history (agent w)) = length (opponent_history (agent w)) ->
  fst (get_ai_move p b w) = Raise e -> e = ZeroDivisionError.
Proof.
  intros Hm Ho Hlen.
  unfold get_ai_move, bind, get_self, lift, ret.
  destruct (strategy_pattern_returns (agent w) w) as (r & w1 & E1 & _).
  rewrite E1. destruct r as [pm |]; [discriminate |].
  destruct (strategy_counter (agent w)) as [c | e'] eqn:Ec.
  - rewrite (strategy_bomb_valid (agent w) b w1 Hm Ho Hlen).
    destruct (_ && _).
    + destruct (Qltb _ _); [discriminate |].
      destruct (strategy_difficulty_result (agent w) c
                  (mkWorld (agent w1) (advance (generator w1)))) as (m' & w' & E & _).
      rewrite E. discriminate.
    + destruct (strategy_difficulty_result (agent w) c w1) as (m' & w' & E & _).
      rewrite E. discriminate.
  - cbn [fst]. intros E. injection E as <-. now apply strategy_counter_raises in Ec.
Qed.

Lemma main_bot_move_raises_only (state : GameState) (w : World) (e : exn) :
  Forall is_valid (move_history (agent w)) ->
  Forall is_valid (opponent_history (agent w)) ->
  length (move_history (agent w)) = length (opponent_history (agent w)) ->
  fst (main_bot_move state w) = Raise e -> e = ZeroDivisionError.
Proof.
  intros Hm Ho Hlen. unfold main_bot_move, bind.
  pose proof (get_ai_move_raises_only (user_bomb_used state) (bot_bomb_used state) w)
    as Hr.
  destruct (get_ai_move (user_bomb_used state) (bot_bomb_used state) w)
    as [[m | e'] w1].
  - destruct ((m =? "bomb") && bot_bomb_used state).
    + destruct (random_choice_base w1) as (m' & _ & Ec). rewrite Ec. discriminate.
    + destruct (m =? "bomb"); discriminate.
  - cbn [fst]. intros E. injection E as <-. now apply (Hr e').
Qed.

Lemma main_round_raises_only (line : string) (state : GameState) (w : World) (e : exn) :
  Forall is_valid (move_history (agent w)) ->
  Forall is_valid (opponent_history (agent w)) ->
  length (move_history (agent w)) = length (opponent_history (agent w)) ->
  fst (main_round line state w) = Raise e -> e = ZeroDivisionError.
Proof.
  intros Hm Ho Hlen.
  destruct (validate_move line (user_bomb_used state)) as [v mv rs] eqn:Ev.
  destruct v.
  - destruct (validate_move_valid_form line (user_bomb_used state)) as (um & Eum);
      [rewrite Ev; reflexivity |].
    destruct (validate_move_accepts_inv line _ um Eum) as [Hum _].
    rewrite <- validate_move_normalised in Eum.
    rewrite (main_round_valid line state um Eum).
    set (state1 := if um =? "bomb" then _ else state).
    unfold bind at 1.
    pose proof (main_bot_move_raises_only state1 w) as Hr.
    destruct (main_bot_move state1 w) as [[played | e'] w1] eqn:Eb.
    + destruct (main_bot_move_inv state1 w w1 played Eb) as (Hbm & _).
      destruct (score_step (snd played) um (fst played) Hum Hbm) as (winner & Hres & _).
      unfold bind, lift, ret. rewrite Hres, update_history_world. discriminate.
    + cbn [fst]. intros E. injection E as <-. now apply (Hr e').
  - rewrite main_round_invalid by (rewrite Ev; reflexivity). discriminate.
Qed.

Lemma main_round_preserves (line : string) (state st' : GameState) (w w' : World) :
  game_invariant state (agent w) ->
  main_round line state w = (Return st', w') ->
  game_invariant st' (agent w')
  /\ round st' = round state + 1
  /\ length (opponent_history (agent w'))
     = length (opponent_history (agent w))
       + (if valid (validate_move line (user_bomb_used state)) then 1 else 0).
Proof.
  intros (Hm & Ho & Hlen & Hr & Hs & Hub & Hbb).
  destruct (validate_move line (user_bomb_used state)) as [v mv rs] eqn:Ev.
  destruct v.
  - destruct (validate_move_valid_form line (user_bomb_used state)) as (um & Eum);
      [rewrite Ev; reflexivity |].
    intros E.
    destruct (main_round_inv line state st' w w' um Eum E)
      as (bm & Hum & Hbm & Hu0 & Hb0 & Eo & Em & _ & _ & R & Fu & Fb & _ & _ & S).
    cbn [valid]. unfold game_invariant.
    rewrite Eo, Em, !length_app, !occurrences_app_one, R, Fu, Fb. cbn [length].
    repeat split; try lia.
    + apply Forall_app. split; [exact Hm | now constructor].
    + apply Forall_app. split; [exact Ho | now constructor].
    + destruct (um =? bm); lia.
    + rewrite (String.eqb_sym "bomb" um).
      destruct (um =? "bomb") eqn:Eq.
      * apply String.eqb_eq in Eq. rewrite (Hu0 Eq) in *. cbn. lia.
      * rewrite orb_false_r. lia.
    + rewrite (String.eqb_sym "bomb" bm).
      destruct (bm =? "bomb") eqn:Eq.
      * apply String.eqb_eq in Eq. rewrite (Hb0 Eq) in *. cbn. lia.
      * rewrite orb_false_r. lia.
  - rewrite main_round_invalid by (rewrite Ev; reflexivity).
    intros E. injection E as <- <-. cbn [valid round].
    unfold game_invariant. cbn. repeat split; try assumption; lia.
Qed.

Lemma main_loop_inv (fuel : nat) :
  forall (lines : nat -> string) (read : nat) (state : GameState) (w : World),
    game_invariant state (agent w) ->
    4 - round state <= fuel ->
    fst (main_loop fuel lines read state w) = Raise ZeroDivisionError
    \/ exists st n w',
         main_loop fuel lines read state w = (Return (Some (st, n)), w')
         /\ game_invariant st (agent w')
         /\ round st = Nat.max (round state) 4
         /\ n + length (opponent_history (agent w))
            = read + (4 - round state) + length (opponent_history (agent w')).
Proof.
  induction fuel as [| fuel IH]; intros lines read state w Hinv Hfuel.
  - cbn [main_loop].
    destruct (Nat.leb_spec (round state) 3) as [Hle | Hgt]; [lia |].
    right. exists state, read, w.
    split; [reflexivity | split; [exact Hinv | split; lia]].
  - cbn [main_loop].
    destruct (Nat.leb_spec (round state) 3) as [Hle | Hgt].
    + unfold bind.
      destruct (main_round (lines read) state w) as [[st1 | e] w1] eqn:E1.
      * destruct (main_round_preserves (lines read) state st1 w w1 Hinv E1)
          as (Hinv1 & R1 & L1).
        rewrite validate_move_normalised.
        set (read' := if valid _ then S (S read) else S read).
        destruct (IH lines read' st1 w1 Hinv1) as [Hraise | Hret]; [lia | |].
        -- left. exact Hraise.
        -- right. destruct Hret as (st & n & w' & E & Hinv' & R & N).
           exists st, n, w'. split; [exact E |]. split; [exact Hinv' |].
           split; [lia |]. rewrite L1 in N. unfold read' in N.
           destruct (valid _); lia.
      * left. cbn [fst]. f_equal.
        destruct Hinv as (Hm & Ho & Hlen & _).
        apply (main_round_raises_only (lines read) state w e Hm Ho Hlen).
        rewrite E1. reflexivity.
    + right. exists state, read, w.
      split; [reflexivity | split; [exact Hinv | split; lia]].
Qed.

(** X18. A whole game. From the initial game state and a fresh agent of any
    difficulty, with any generator and any typed lines, three iterations end
    the round loop unless it raises, and the only exception it raises is
    [ZeroDivisionError]. When it ends, the round counter is 4; the agent has
    recorded as many rounds as there were valid lines, at most three, with
    valid moves throughout and as many moves of the bot as of the player;
    the lines read are three plus one for each recorded round; the points
    given do not exceed the recorded rounds; and each player has played
    bomb at most once. *)
Theorem main_loop_game (d : string) (g : Rng) (lines : nat -> string) (fuel : nat) :
  3 <= fuel ->
  fst (main_loop fuel lines 0 GameState_init (mkWorld (AIAgent_init d) g))
  = Raise ZeroDivisionError
  \/ exists st n w',
       main_loop fuel lines 0 GameState_init (mkWorld (AIAgent_init d) g)
       = (Return (Some (st, n)), w')
       /\ round st = 4
       /\ length (move_history (agent w')) = length (opponent_history (agent w'))
       /\ length (opponent_history (agent w')) <= 3
       /\ n = 3 + length (opponent_history (agent w'))
       /\ user_score st + bot_score st <= length (opponent_history (agent w'))
       /\ Forall is_valid (opponent_history (agent w'))
       /\ Forall is_valid (move_history (agent w'))
       /\ occurrences "bomb" (opponent_history (agent w')) <= 1
       /\ occurrences "bomb" (move_history (agent w')) <= 1.
Proof.
  intros Hfuel.
  assert (Hinv : game_invariant GameState_init (agent (mkWorld (AIAgent_init d) g))).
  { unfold game_invariant. cbn. repeat split; try constructor; lia. }
  destruct (main_loop_inv fuel lines 0 GameState_init (mkWorld (AIAgent_init d) g) Hinv)
    as [Hraise | (st & n & w' & E & (Hm & Ho & Hlen & Hr & Hs & Hub & Hbb) & R & N)].
  - cbn. lia.
  - left. exact Hraise.
  - right. exists st, n, w'. cbn in R, N.
    repeat split; try assumption; try lia.
    + destruct (user_bomb_used st); lia.
    + destruct (bot_bomb_used st); lia.
Qed.

Lemma main_loop_game_witness :
  exists st n w',
    main_loop 3 (fun _ => "rock") 0 GameState_init fresh_hard_world
    = (Return (Some (st, n)), w')
    /\ round st = 4 /\ n = 6.
Proof.
  destruct (main_loop_game "hard" zero_generator (fun _ => "rock") 3 (le_n 3))
    as [Hraise | (st & n & w' & E & R & _ & _ & N & _)].
  - vm_compute in Hraise. discriminate Hraise.
  - exists st, n, w'. split; [exact E |]. split; [exact R |].
    rewrite N. apply (f_equal snd) in E. cbn [snd] in E. subst w'.
    vm_compute. reflexivity.
Defined.

(* ------------------------------------------------------------------------- *)
(** * The difficulty menu *)

Lemma is_choice_false (s : string) :
  is_choice s = false ->
  (s =? "1") = false /\ (s =? "2") = false /\ (s =? "3") = false /\ (s =? "4") = false.
Proof.
  unfold is_choice. intros H.
  destruct (s =? "1"), (s =? "2"), (s =? "3"), (s =? "4");
    try discriminate H; repeat split.
Qed.

Lemma select_difficulty_sound (fuel : nat) :
  forall (lines : nat -> string) (read : nat) (d : string) (n : nat),
    select_difficulty fuel lines read = Some (d, n) ->
    read < n /\ n <= read + fuel
    /\ ((strip (lines (n - 1)) = "1" /\ d = "easy")
        \/ (strip (lines (n - 1)) = "2" /\ d = "medium")
        \/ (strip (lines (n - 1)) = "3" /\ d = "hard")
        \/ (strip (lines (n - 1)) = "4" /\ d = "expert"))
    /\ (forall i, read <= i -> i < n - 1 -> is_choice (strip (lines i)) = false).
Proof.
  induction fuel as [| fuel IH]; intros lines read d n; [discriminate |].
  cbn [select_difficulty].
  destruct (strip (lines read) =? "1") eqn:E1;
    [| destruct (strip (lines read) =? "2") eqn:E2;
       [| destruct (strip (lines read) =? "3") eqn:E3;
          [| destruct (strip (lines read) =? "4") eqn:E4]]].
  1-4: intros E; injection E as <- <-;
    replace (S read - 1) with read by lia;
    (split; [lia |]); (split; [lia |]); split; [| intros i; lia].
  - left. split; [now apply String.eqb_eq | reflexivity].
  - right. left. split; [now apply String.eqb_eq | reflexivity].
  - right. right. left. split; [now apply String.eqb_eq | reflexivity].
  - right. right. right. split; [now apply String.eqb_eq | reflexivity].
  - intros E. destruct (IH lines (S read) d n E) as (Hlt & Hle & Hd & Hbefore).
    split; [lia |]. split; [lia |]. split; [exact Hd |].
    intros i Hi Hn. destruct (Nat.eq_dec i read) as [-> | Hne].
    + unfold is_choice. now rewrite E1, E2, E3, E4.
    + apply Hbefore; lia.
Qed.

Lemma select_difficulty_complete (k : nat) :
  forall (fuel : nat) (lines : nat -> string) (read : nat),
    k < fuel ->
    is_choice (strip (lines (read + k))) = true ->
    (forall i, i < k -> is_choice (strip (lines (read + i))) = false) ->
    exists d, select_difficulty fuel lines read = Some (d, read + k + 1)
              /\ In d DIFFICULTIES.
Proof.
  induction k as [| k IH]; intros fuel lines read Hfuel Hk Hbefore;
    (destruct fuel as [| fuel]; [lia |]); cbn [select_difficulty].
  - rewrite Nat.add_0_r in Hk. unfold is_choice in Hk.
    replace (read + 0 + 1) with (S read) by lia.
    destruct (strip (lines read) =? "1");
      [eexists; split; [reflexivity | simpl; tauto] |].
    destruct (strip (lines read) =? "2");
      [eexists; split; [reflexivity | simpl; tauto] |].
    destruct (strip (lines read) =? "3");
      [eexists; split; [reflexivity | simpl; tauto] |].
    destruct (strip (lines read) =? "4");
      [eexists; split; [reflexivity | simpl; tauto] | discriminate Hk].
  - pose proof (Hbefore 0 ltac:(lia)) as H0. rewrite Nat.add_0_r in H0.
    destruct (is_choice_false _ H0) as (E1 & E2 & E3 & E4).
    rewrite E1, E2, E3, E4.
    destruct (IH fuel lines (S read)) as (d & E & Hd).
    + lia.
    + replace (S read + k) with (read + S k) by lia. exact Hk.
    + intros i Hi. replace (S read + i) with (read + S i) by lia.
      apply Hbefore. lia.
    + exists d. split; [| exact Hd].
      rewrite E. do 2 f_equal. lia.
Qed.

(** X19. The difficulty menu, on typed lines of ASCII characters. A result
    of [select_difficulty] is always one of easy, medium, hard and expert:
    the one for the digit 1, 2, 3 or 4 that the last line read is once
    stripped, none of the lines read before it being such a digit.
    Conversely, as soon as the typed lines hold such a digit, the menu
    returns after the first one. *)
Theorem select_difficulty_choice :
  (forall fuel lines read d n,
      select_difficulty fuel lines read = Some (d, n) ->
      (forall i, read <= i -> i < n -> is_ascii (lines i) = true) ->
      In d DIFFICULTIES
      /\ read < n
      /\ ((strip (lines (n - 1)) = "1" /\ d = "easy")
          \/ (strip (lines (n - 1)) = "2" /\ d = "medium")
          \/ (strip (lines (n - 1)) = "3" /\ d = "hard")
          \/ (strip (lines (n - 1)) = "4" /\ d = "expert"))
      /\ (forall i, read <= i -> i < n - 1 -> is_choice (strip (lines i)) = false))
  /\ (forall fuel lines read k,
      k < fuel ->
      (forall i, i <= k -> is_ascii (lines (read + i)) = true) ->
      is_choice (strip (lines (read + k))) = true ->
      (forall i, i < k -> is_choice (strip (lines (read + i))) = false) ->
      exists d, select_difficulty fuel lines read = Some (d, read + k + 1)
                /\ In d DIFFICULTIES).
Proof.
  split.
  - intros fuel lines read d n E _.
    destruct (select_difficulty_sound fuel lines read d n E) as (Hlt & _ & Hd & Hb).
    split; [| split; [exact Hlt | split; [exact Hd | exact Hb]]].
    destruct Hd as [[_ ->] | [[_ ->] | [[_ ->] | [_ ->]]]]; simpl; tauto.
  - intros fuel lines read k Hk _. now apply select_difficulty_complete.
Qed.

Lemma select_difficulty_choice_witness :
  exists d,
    select_difficulty 5 (fun i => if (i =? 2)%nat then " 3 " else "hard") 0
    = Some (d, 3)
    /\ In d DIFFICULTIES.
Proof.
  destruct select_difficulty_choice as [_ H].
  apply (H 5 (fun i => if (i =? 2)%nat then " 3 " else "hard") 0 2).
  - lia.
  - intros i Hi. destruct i as [| [| [| i]]]; reflexivity.
  - reflexivity.
  - intros i Hi. destruct i as [| [| i]]; [reflexivity | reflexivity | lia].
Defined.
